(** * corpus: the packing, indexing and retrieval core

    A shallow embedding of [corpus/pack.py] (glob selection, the bundle
    writer, the index renderers, the gzip/base64 envelope) and of
    [corpus/mcp/sources.py] (the directory source, the bundle reader and
    the scored search), followed by the properties of the specification
    that were checked against them.

    Conventions.  A Python [str] is the list of its code points and a
    [bytes] object the list of its octets, both as [list Z].  Dictionaries
    whose order is never observed are [gmap]s; dictionaries that are
    iterated or nested are association lists in insertion order.  Calls
    that can raise return a [result]. *)

From Stdlib Require Import ZArith List String Ascii Lia Bool DecimalString.
From stdpp Require Import gmap list.
Import ListNotations.
Local Open Scope Z_scope.
Set Warnings "-register-all".

(** ** Python text and bytes *)

Abbreviation str := (list Z).
Abbreviation bytes := (list Z).

(** An ASCII literal of the source, as a list of code points. *)
Definition lit (s : string) : str :=
  map (fun a => Z.of_N (N_of_ascii a)) (list_ascii_of_string s).
Arguments lit _%_string : simpl never.

Definition NL : Z := 10.
Definition CR : Z := 13.
Definition SLASH : Z := 47.

Fixpoint list_eqb {A} (eqb : A -> A -> bool) (a b : list A) : bool :=
  match a, b with
  | [], [] => true
  | x :: a', y :: b' => eqb x y && list_eqb eqb a' b'
  | _, _ => false
  end.

Definition str_eqb : str -> str -> bool := list_eqb Z.eqb.

(** Does [l] begin with [p]? *)
Fixpoint prefix_b {A} (eqb : A -> A -> bool) (l p : list A) : bool :=
  match p, l with
  | [], _ => true
  | y :: p', x :: l' => eqb x y && prefix_b eqb l' p'
  | _ :: _, [] => false
  end.

(** [s.startswith(p)] *)
Definition startswith : str -> str -> bool := prefix_b Z.eqb.

(** [s.endswith(p)] *)
Definition endswith (s p : str) : bool := startswith (rev s) (rev p).

(** [sub in s] *)
Fixpoint contains (sub s : str) : bool :=
  startswith s sub ||
  match s with
  | [] => false
  | _ :: s' => contains sub s'
  end.

(** [c in s] for a single character. *)
Definition has_char (c : Z) (s : str) : bool := existsb (Z.eqb c) s.

(** [s.split(sep)] for a one-character separator: never empty. *)
Fixpoint split_on (c : Z) (s : str) : list str :=
  match s with
  | [] => [[]]
  | x :: s' =>
      let r := split_on c s' in
      if x =? c then [] :: r
      else match r with
           | h :: t => (x :: h) :: t
           | [] => [[x]]
           end
  end.

(** [sep.join(parts)] *)
Fixpoint join (sep : str) (parts : list str) : str :=
  match parts with
  | [] => []
  | [p] => p
  | p :: ps => p ++ sep ++ join sep ps
  end.

(** [s.replace(old, new)]: leftmost, non-overlapping occurrences.  [skip]
    counts the items of an occurrence still to be dropped. *)
Fixpoint replace_from {A} (eqb : A -> A -> bool) (old new : list A)
    (skip : nat) (s : list A) : list A :=
  match s with
  | [] => []
  | c :: s' =>
      match skip with
      | S k => replace_from eqb old new k s'
      | O =>
          if prefix_b eqb s old
          then new ++ replace_from eqb old new (Nat.pred (length old)) s'
          else c :: replace_from eqb old new O s'
      end
  end.

Definition list_replace {A} (eqb : A -> A -> bool) (old new s : list A) : list A :=
  match old with
  | [] => new ++ flat_map (fun c => c :: new) s
  | _ :: _ => replace_from eqb old new O s
  end.

Definition replace : str -> str -> str -> str := list_replace Z.eqb.

(** [s.count(c)] for a single character. *)
Definition count_char (c : Z) (s : str) : Z :=
  Z.of_nat (length (List.filter (fun x => x =? c) s)).

(** [str.isspace] on one code point (the Unicode white-space set). *)
Definition is_space (c : Z) : bool :=
  ((9 <=? c) && (c <=? 13)) || ((28 <=? c) && (c <=? 32)) ||
  (c =? 133) || (c =? 160) || (c =? 5760) ||
  ((8192 <=? c) && (c <=? 8202)) || (c =? 8232) || (c =? 8233) ||
  (c =? 8239) || (c =? 8287) || (c =? 12288).

(** [\s] of a bytes pattern: ASCII white space only. *)
Definition is_space_b (c : Z) : bool :=
  (c =? 32) || ((9 <=? c) && (c <=? 13)).

Fixpoint lstrip_by (f : Z -> bool) (s : str) : str :=
  match s with
  | c :: s' => if f c then lstrip_by f s' else s
  | [] => []
  end.

Definition rstrip_by (f : Z -> bool) (s : str) : str :=
  rev (lstrip_by f (rev s)).

(** [s.strip()] *)
Definition strip (s : str) : str := rstrip_by is_space (lstrip_by is_space s).

(** [s.split()]: the maximal runs of non-white-space characters. *)
Fixpoint split_ws_from (cur : str) (s : str) : list str :=
  match s with
  | [] => match cur with [] => [] | _ => [rev cur] end
  | c :: s' =>
      if is_space c
      then match cur with
           | [] => split_ws_from [] s'
           | _ => rev cur :: split_ws_from [] s'
           end
      else split_ws_from (c :: cur) s'
  end.

Definition split_ws (s : str) : list str := split_ws_from [] s.

(** Iterating a file object or an [io.StringIO]: the lines, each keeping
    its terminating newline. *)
Fixpoint lines_keepends (s : str) : list str :=
  match s with
  | [] => []
  | c :: s' =>
      if c =? NL then [c] :: lines_keepends s'
      else match lines_keepends s' with
           | [] => [[c]]
           | l :: ls => (c :: l) :: ls
           end
  end.

(** Text-mode reading with the default [newline=None]: CR LF and a lone CR
    both become LF. *)
Fixpoint universal_newlines (s : str) : str :=
  match s with
  | [] => []
  | c :: s' =>
      if c =? CR then
        match s' with
        | d :: s'' => if d =? NL then NL :: universal_newlines s''
                      else NL :: universal_newlines s'
        | [] => [NL]
        end
      else c :: universal_newlines s'
  end.

(** [str(n)] for an integer. *)
Definition str_of_Z (n : Z) : str := lit (NilZero.string_of_int (Z.to_int n)).

(** Lexicographic order on code points: the order of [sorted] on strings. *)
Fixpoint str_ltb (a b : str) : bool :=
  match a, b with
  | _, [] => false
  | [], _ :: _ => true
  | x :: a', y :: b' => (x <? y) || ((x =? y) && str_ltb a' b')
  end.

Definition str_leb (a b : str) : bool := negb (str_ltb b a).

(** A stable insertion sort: [list.sort] and [sorted] are stable, so any
    stable sort returns the same list.  [le x y] holds when [x] may stay
    in front of [y]. *)
Fixpoint insert_sorted {A} (le : A -> A -> bool) (x : A) (l : list A) : list A :=
  match l with
  | [] => [x]
  | y :: l' => if le x y then x :: l else y :: insert_sorted le x l'
  end.

Definition stable_sort {A} (le : A -> A -> bool) (l : list A) : list A :=
  fold_right (insert_sorted le) [] l.

(** Outcome of a call that may raise. *)
Inductive pyerror : Type :=
| ValueError (msg : str)
| UnicodeEncodeError
| FileNotFoundError (path : str)
| OSError (path : str)
| TypeError
| AttributeError.

Inductive result (A : Type) : Type :=
| Ok (a : A)
| Raise (e : pyerror).
Arguments Ok {A} a.
Arguments Raise {A} e.

Definition bind {A B} (r : result A) (k : A -> result B) : result B :=
  match r with
  | Ok a => k a
  | Raise e => Raise e
  end.

Notation "x <- r ;; k" := (bind r (fun x => k))
  (at level 100, r at next level, right associativity).

(** ** UTF-8 *)

(** A Unicode scalar value: what [str.encode("utf-8")] accepts. *)
Definition is_scalar (c : Z) : bool :=
  (0 <=? c) && (c <? 1114112) && negb ((55296 <=? c) && (c <=? 57343)).

Definition utf8_enc_cp (c : Z) : bytes :=
  if c <? 128 then [c]
  else if c <? 2048 then [192 + c / 64; 128 + c mod 64]
  else if c <? 65536 then
    [224 + c / 4096; 128 + (c / 64) mod 64; 128 + c mod 64]
  else
    [240 + c / 262144; 128 + (c / 4096) mod 64;
     128 + (c / 64) mod 64; 128 + c mod 64].

(** [s.encode("utf-8")]: strict, a lone surrogate raises. *)
Definition utf8_encode (s : str) : result bytes :=
  if forallb is_scalar s then Ok (flat_map utf8_enc_cp s)
  else Raise UnicodeEncodeError.

Definition is_cont (b : Z) : bool := (128 <=? b) && (b <=? 191).

(** The range allowed for the second byte after lead byte [b0]. *)
Definition second_ok (b0 b1 : Z) : bool :=
  if b0 =? 224 then (160 <=? b1) && (b1 <=? 191)
  else if b0 =? 237 then (128 <=? b1) && (b1 <=? 159)
  else if b0 =? 240 then (144 <=? b1) && (b1 <=? 191)
  else if b0 =? 244 then (128 <=? b1) && (b1 <=? 143)
  else is_cont b1.

(** [b.decode("utf-8", errors="ignore")]: an ill-formed sequence is dropped
    up to the byte at which it stops being a prefix of a well-formed one,
    and decoding resumes there. *)
Fixpoint utf8_decode_ignore (b : bytes) : str :=
  match b with
  | [] => []
  | b0 :: r0 =>
      if b0 <? 128 then b0 :: utf8_decode_ignore r0
      else if (194 <=? b0) && (b0 <=? 223) then
        match r0 with
        | [] => []
        | b1 :: r1 =>
            if is_cont b1
            then ((b0 - 192) * 64 + (b1 - 128)) :: utf8_decode_ignore r1
            else utf8_decode_ignore r0
        end
      else if (224 <=? b0) && (b0 <=? 239) then
        match r0 with
        | [] => []
        | b1 :: r1 =>
            if second_ok b0 b1 then
              match r1 with
              | [] => []
              | b2 :: r2 =>
                  if is_cont b2
                  then ((b0 - 224) * 4096 + (b1 - 128) * 64 + (b2 - 128))
                         :: utf8_decode_ignore r2
                  else utf8_decode_ignore r1
              end
            else utf8_decode_ignore r0
        end
      else if (240 <=? b0) && (b0 <=? 244) then
        match r0 with
        | [] => []
        | b1 :: r1 =>
            if second_ok b0 b1 then
              match r1 with
              | [] => []
              | b2 :: r2 =>
                  if is_cont b2 then
                    match r2 with
                    | [] => []
                    | b3 :: r3 =>
                        if is_cont b3
                        then ((b0 - 240) * 262144 + (b1 - 128) * 4096
                              + (b2 - 128) * 64 + (b3 - 128))
                               :: utf8_decode_ignore r3
                        else utf8_decode_ignore r2
                    end
                  else utf8_decode_ignore r1
              end
            else utf8_decode_ignore r0
        end
      else utf8_decode_ignore r0
  end.

(** Reading a file opened with [open(p, "r", encoding="utf-8",
    errors="ignore")]. *)
Definition read_text (data : bytes) : str :=
  universal_newlines (utf8_decode_ignore data).

(** ** Character tables of the runtime

    Case mapping and the word class come from the interpreter's Unicode
    tables, not from this repository: the embedding is parameterised by
    them, and [ascii_tables] gives their restriction to ASCII. *)

Class Unicode := {
  lower : str -> str;                (* str.lower *)
  is_word : Z -> bool;               (* \w of a str pattern *)
  re_ieq : Z -> Z -> bool;           (* equality under re.IGNORECASE *)
  is_printable : Z -> bool           (* str.isprintable, used by repr *)
}.

Definition ascii_lower_cp (c : Z) : Z :=
  if (65 <=? c) && (c <=? 90) then c + 32 else c.

Definition ascii_is_word (c : Z) : bool :=
  ((48 <=? c) && (c <=? 57)) || ((65 <=? c) && (c <=? 90)) ||
  ((97 <=? c) && (c <=? 122)) || (c =? 95).

Definition ascii_tables : Unicode := {|
  lower := map ascii_lower_cp;
  is_word := ascii_is_word;
  re_ieq := fun a b => ascii_lower_cp a =? ascii_lower_cp b;
  is_printable := fun c => (32 <=? c) && negb (c =? 127)
|}.

(** ** [os.path] on POSIX *)

Definition DOT : Z := 46.

(** [s.rfind(c)]: the last index of [c], or [-1]. *)
Definition rfind (c : Z) (s : str) : Z :=
  snd (fold_left
         (fun (st : Z * Z) x =>
            let (i, found) := st in (i + 1, if x =? c then i else found))
         s (0, -1)).

(** [s[i:j]] for [0 <= i]. *)
Definition slice (s : str) (i j : Z) : str :=
  firstn (Z.to_nat (j - i)) (skipn (Z.to_nat i) s).

(** [os.path.join(a, b)] *)
Definition path_join (a b : str) : str :=
  if startswith b [SLASH] then b
  else if str_eqb a [] || endswith a [SLASH] then a ++ b
  else a ++ [SLASH] ++ b.

(** [os.path.basename(p)] *)
Definition basename (p : str) : str :=
  skipn (Z.to_nat (rfind SLASH p + 1)) p.

(** [os.path.splitext(p)]: leading dots of the last component do not start
    an extension. *)
Definition splitext (p : str) : str * str :=
  let sepIndex := rfind SLASH p in
  let dotIndex := rfind DOT p in
  if dotIndex >? sepIndex then
    if existsb (fun c => negb (c =? DOT)) (slice p (sepIndex + 1) dotIndex)
    then (firstn (Z.to_nat dotIndex) p, skipn (Z.to_nat dotIndex) p)
    else (p, [])
  else (p, []).

Definition norm_step (initial_slashes : Z) (new_comps : list str) (comp : str)
    : list str :=
  if str_eqb comp [] || str_eqb comp (lit ".") then new_comps
  else if negb (str_eqb comp (lit ".."))
          || ((initial_slashes =? 0) && match new_comps with [] => true | _ => false end)
          || match rev new_comps with
             | l :: _ => str_eqb l (lit "..")
             | [] => false
             end
       then new_comps ++ [comp]
       else removelast new_comps.

(** [os.path.normpath(path)] *)
Definition normpath (path : str) : str :=
  match path with
  | [] => lit "."
  | _ =>
      let initial_slashes :=
        if startswith path (lit "/") then
          if startswith path (lit "//") && negb (startswith path (lit "///"))
          then 2 else 1
        else 0 in
      let comps := fold_left (norm_step initial_slashes) (split_on SLASH path) [] in
      let p := repeat SLASH (Z.to_nat initial_slashes) ++ join (lit "/") comps in
      match p with
      | [] => lit "."
      | _ => p
      end
  end.

(** ** Configuration ([PackConfig], [apply_defaults]) *)

Record PackConfig := {
  input_dir : str;
  output_file : str;
  include_globs : option (list str);
  exclude_globs : option (list str);
  verbose : bool;
  compress : bool;
  max_compress : bool;
  gzip_out : bool;
  base64_out : bool;
  write_index : bool;
  index_only : bool;
  index_style : str;
  index_output : option str;
  index_include : option (list str);
  index_depth : option Z
}.

(** [PackConfig()] with every field at its declared default. *)
Definition default_config : PackConfig := {|
  input_dir := lit ".";
  output_file := lit "corpus-out.txt";
  include_globs := None;
  exclude_globs := None;
  verbose := false;
  compress := false;
  max_compress := false;
  gzip_out := false;
  base64_out := false;
  write_index := false;
  index_only := false;
  index_style := lit "flat";
  index_output := None;
  index_include := None;
  index_depth := None
|}.

Definition default_excludes : list str :=
  [lit "**/.git/**"; lit "**/node_modules/**"; lit "**/venv/**";
   lit "**/__pycache__/**"; lit "**/bin/**"].

Arguments default_excludes : simpl never.

(** [x is None or x == []] *)
Definition none_or_empty (x : option (list str)) : bool :=
  match x with
  | None | Some [] => true
  | Some (_ :: _) => false
  end.

(** The value of a list field once defaults are applied. *)
Definition the_list (x : option (list str)) : list str :=
  match x with
  | Some l => l
  | None => []
  end.

Definition valid_styles : list str := [lit "flat"; lit "tree"; lit "json"].

(** [apply_defaults(cfg)].  The function assigns to the fields of [cfg] and
    returns the same object; the returned record is that object's final
    state, which is also what a later call on the same object receives.
    When it raises, the two glob fields have already been assigned; the
    state of the object after a failure is not part of the result. *)
Definition apply_defaults (cfg : PackConfig) : result PackConfig :=
  let include_globs' :=
    if none_or_empty (include_globs cfg) then Some [] else include_globs cfg in
  let exclude_globs' :=
    if none_or_empty (exclude_globs cfg) then Some default_excludes
    else Some (default_excludes ++ the_list (exclude_globs cfg)) in
  if base64_out cfg && negb (gzip_out cfg)
  then Raise (ValueError (lit "--base64 requires --gzip"))
  else
    let index_include' :=
      match index_include cfg with
      | None => Some []
      | Some l => Some l
      end in
    let index_style' :=
      if existsb (str_eqb (index_style cfg)) valid_styles
      then index_style cfg else lit "flat" in
    Ok {| input_dir := input_dir cfg;
          output_file := output_file cfg;
          include_globs := include_globs';
          exclude_globs := exclude_globs';
          verbose := verbose cfg;
          compress := compress cfg;
          max_compress := max_compress cfg;
          gzip_out := gzip_out cfg;
          base64_out := base64_out cfg;
          write_index := write_index cfg;
          index_only := index_only cfg;
          index_style := index_style';
          index_output := index_output cfg;
          index_include := index_include';
          index_depth := index_depth cfg |}.

(** The same configuration with other envelope flags. *)
Definition with_envelope (gz b64 : bool) (cfg : PackConfig) : PackConfig := {|
  input_dir := input_dir cfg;
  output_file := output_file cfg;
  include_globs := include_globs cfg;
  exclude_globs := exclude_globs cfg;
  verbose := verbose cfg;
  compress := compress cfg;
  max_compress := max_compress cfg;
  gzip_out := gz;
  base64_out := b64;
  write_index := write_index cfg;
  index_only := index_only cfg;
  index_style := index_style cfg;
  index_output := index_output cfg;
  index_include := index_include cfg;
  index_depth := index_depth cfg
|}.

(** The same configuration with another exclude list. *)
Definition with_excludes (x : option (list str)) (cfg : PackConfig) : PackConfig := {|
  input_dir := input_dir cfg;
  output_file := output_file cfg;
  include_globs := include_globs cfg;
  exclude_globs := x;
  verbose := verbose cfg;
  compress := compress cfg;
  max_compress := max_compress cfg;
  gzip_out := gzip_out cfg;
  base64_out := base64_out cfg;
  write_index := write_index cfg;
  index_only := index_only cfg;
  index_style := index_style cfg;
  index_output := index_output cfg;
  index_include := index_include cfg;
  index_depth := index_depth cfg
|}.

(** ** Glob matching ([_match_glob], [_should_exclude], [_should_include]) *)

(** The regular expression that [_match_glob] builds, as a list of items:
    [re.escape] leaves every character a literal, with [*] and [?] escaped;
    the [str.replace] chain then rewrites runs of escaped stars. *)
Inductive atom : Type :=
| AChar (c : Z)        (* a literal character, escaped where needed *)
| AStar                (* \*  *)
| AQuest               (* \?  *)
| AOptDirs             (* (?:.*/)?  *)
| ADotStar             (* .*  *)
| ANoSlashStar         (* [^/]*  *)
| ANoSlash.            (* [^/]  *)

Definition atom_eqb (a b : atom) : bool :=
  match a, b with
  | AChar x, AChar y => x =? y
  | AStar, AStar | AQuest, AQuest | AOptDirs, AOptDirs
  | ADotStar, ADotStar | ANoSlashStar, ANoSlashStar | ANoSlash, ANoSlash => true
  | _, _ => false
  end.

(** [re.escape(pattern)] *)
Definition re_escape (pattern : str) : list atom :=
  map (fun c => if c =? 42 then AStar else if c =? 63 then AQuest else AChar c)
      pattern.

Definition glob_regex (pattern : str) : list atom :=
  let regex := re_escape pattern in
  let regex := list_replace atom_eqb [AStar; AStar; AChar SLASH] [AOptDirs] regex in
  let regex := list_replace atom_eqb [AChar SLASH; AStar; AStar; AChar SLASH]
                 [AChar SLASH; AOptDirs] regex in
  let regex := list_replace atom_eqb [AStar; AStar] [ADotStar] regex in
  let regex := list_replace atom_eqb [AStar] [ANoSlashStar] regex in
  list_replace atom_eqb [AQuest] [ANoSlash] regex.

Definition lit_char (c : Z) (k : str -> bool) (s : str) : bool :=
  match s with
  | x :: s' => (x =? c) && k s'
  | [] => false
  end.

(** [re.compile("^" + regex + "$").match(s) is not None].  [$] also
    matches before a final newline; [.] matches anything but a newline. *)
Fixpoint regex_match (r : list atom) : str -> bool :=
  match r with
  | [] => fun s =>
      match s with
      | [] => true
      | [c] => c =? NL
      | _ => false
      end
  | a :: r' =>
      let k := regex_match r' in
      match a with
      | AChar c => lit_char c k
      | AStar => lit_char 42 k
      | AQuest => lit_char 63 k
      | ANoSlash => fun s =>
          match s with
          | x :: s' => negb (x =? SLASH) && k s'
          | [] => false
          end
      | ANoSlashStar =>
          fix go (s : str) : bool :=
            k s || match s with
                   | x :: s' => negb (x =? SLASH) && go s'
                   | [] => false
                   end
      | ADotStar =>
          fix go (s : str) : bool :=
            k s || match s with
                   | x :: s' => negb (x =? NL) && go s'
                   | [] => false
                   end
      | AOptDirs => fun s =>
          k s ||
          (fix go (s : str) : bool :=
             match s with
             | x :: s' => ((x =? SLASH) && k s') || (negb (x =? NL) && go s')
             | [] => false
             end) s
      end
  end.

Section Glob.
Context {U : Unicode}.

(** [_match_glob(pattern, path)] *)
Definition _match_glob (pattern path : str) : bool :=
  let pattern := normpath pattern in
  let path := normpath path in
  let pattern_ext := snd (splitext pattern) in
  let path_ext := snd (splitext path) in
  let both := negb (str_eqb pattern_ext []) && negb (str_eqb path_ext []) in
  let pattern :=
    if both then fst (splitext pattern) ++ lower pattern_ext else pattern in
  let path :=
    if both then fst (splitext path) ++ lower path_ext else path in
  regex_match (glob_regex pattern) path.

(** The string a pattern is tested against: the base name when the pattern
    has no separator, the whole relative path otherwise. *)
Definition glob_target (pat rel_path : str) : str :=
  if negb (has_char SLASH pat) && negb (has_char 92 pat)
  then basename rel_path else rel_path.

(** [_should_exclude(rel_path, exclude)] *)
Definition _should_exclude (rel_path : str) (exclude : list str) : bool :=
  existsb (fun pat => _match_glob pat (glob_target pat rel_path)) exclude.

(** [_should_include(rel_path, include)] *)
Definition _should_include (rel_path : str) (include : list str) : bool :=
  match include with
  | [] => true
  | _ => existsb (fun pat => _match_glob pat (glob_target pat rel_path)) include
  end.

End Glob.

(** ** Content transform ([_compress_text]) *)

(** [re.sub(r"//.*", "", text)]: a line comment runs to the end of its
    line; the newline stays. *)
Fixpoint strip_line_comments (in_comment : bool) (s : str) : str :=
  match s with
  | [] => []
  | c :: s' =>
      if in_comment then
        if c =? NL then c :: strip_line_comments false s'
        else strip_line_comments true s'
      else if startswith s (lit "//") then strip_line_comments true s'
      else c :: strip_line_comments false s'
  end.

(** The index of the first occurrence of [sub] in [s]. *)
Fixpoint find_sub (sub s : str) : option nat :=
  if startswith s sub then Some O
  else match s with
       | [] => None
       | _ :: s' => option_map S (find_sub sub s')
       end.

(** [re.sub(r"(?s)/\*.*?\*/", "", text)]: a block comment ends at the first
    closing mark after its opening mark; an opening mark that is never
    closed is kept. *)
Fixpoint strip_block_comments (skip : nat) (s : str) : str :=
  match s with
  | [] => []
  | c :: s' =>
      match skip with
      | S k => strip_block_comments k s'
      | O =>
          if startswith s (lit "/*") then
            match find_sub (lit "*/") (skipn 2 s) with
            | Some i => strip_block_comments (i + 3) s'
            | None => c :: strip_block_comments O s'
            end
          else c :: strip_block_comments O s'
      end
  end.

Definition symbols : list Z :=
  map (fun s => hd 0 (lit s))
    ["."; ","; ":"; ";"; ")"; "("; "{"; "}"; "["; "]"; "+"; "-"; "*"; "/";
     "="; "<"; ">"; "&"; "|"; "!"; "?"]%string.

(** [_compress_text(text, aggressive)] *)
Definition _compress_text (text : str) (aggressive : bool) : str :=
  let text :=
    if aggressive
    then strip_block_comments O (strip_line_comments false text)
    else text in
  let text := join (lit " ") (split_ws (replace [NL] (lit " ") text)) in
  fold_left
    (fun text sym =>
       replace [sym; 32] [sym]
         (replace [32; sym] [sym] (replace [32; sym; 32] [sym] text)))
    symbols text.

(** ** Index metadata and Python values *)

(** The values that occur in the index metadata, in the directory tree
    built from it, and in the JSON payload. *)
Inductive pyval : Type :=
| VInt (n : Z)
| VStr (s : str)
| VNone
| VList (l : list pyval)
| VDict (d : list (str * pyval)).

(** A [dict]: its items in insertion order, keys distinct. *)
Abbreviation dict := (list (str * pyval)).

Fixpoint dict_get (k : str) (d : dict) : option pyval :=
  match d with
  | [] => None
  | (k', v) :: d' => if str_eqb k k' then Some v else dict_get k d'
  end.

Definition dict_has (k : str) (d : dict) : bool :=
  match dict_get k d with
  | Some _ => true
  | None => false
  end.

(** [d[k] = v]: an existing key keeps its place, a new one goes last. *)
Fixpoint dict_set (k : str) (v : pyval) (d : dict) : dict :=
  match d with
  | [] => [(k, v)]
  | (k', v') :: d' =>
      if str_eqb k k' then (k, v) :: d' else (k', v') :: dict_set k v d'
  end.

Definition list_has (k : str) (l : list str) : bool := existsb (str_eqb k) l.

(** [set(l)], as a list without repetition. *)
Fixpoint dedup (l : list str) : list str :=
  match l with
  | [] => []
  | x :: l' => if list_has x l' then dedup l' else x :: dedup l'
  end.

Section Repr.
Context {U : Unicode}.

Definition hex_digit (n : Z) : Z := if n <? 10 then 48 + n else 87 + n.

(** One character inside the quotes of [repr(s)]. *)
Definition repr_char (quote : Z) (c : Z) : str :=
  if (c =? quote) || (c =? 92) then [92; c]
  else if c =? 9 then lit "\t"
  else if c =? NL then lit "\n"
  else if c =? CR then lit "\r"
  else if is_printable c then [c]
  else if c <? 256 then lit "\x" ++ [hex_digit (c / 16); hex_digit (c mod 16)]
  else if c <? 65536 then
    lit "\u" ++ map hex_digit [c / 4096; (c / 256) mod 16; (c / 16) mod 16; c mod 16]
  else
    lit "\U" ++ map hex_digit
      [0; 0; c / 1048576; (c / 65536) mod 16; (c / 4096) mod 16;
       (c / 256) mod 16; (c / 16) mod 16; c mod 16].

(** [repr(s)] for a string: double quotes only when the text has a single
    quote and no double quote. *)
Definition repr_str (s : str) : str :=
  let quote := if has_char 39 s && negb (has_char 34 s) then 34 else 39 in
  [quote] ++ flat_map (repr_char quote) s ++ [quote].

(** [repr(v)] *)
Fixpoint py_repr (v : pyval) : str :=
  match v with
  | VInt n => str_of_Z n
  | VStr s => repr_str s
  | VNone => lit "None"
  | VList l => lit "[" ++ join (lit ", ") (map py_repr l) ++ lit "]"
  | VDict d =>
      lit "{" ++
      join (lit ", ")
        ((fix items (d : dict) : list str :=
            match d with
            | [] => []
            | (k, x) :: d' => (repr_str k ++ lit ": " ++ py_repr x) :: items d'
            end) d)
      ++ lit "}"
  end.

(** [f"{v}"]: [str(v)], which is the text itself for a string. *)
Definition py_format (v : pyval) : str :=
  match v with
  | VStr s => s
  | _ => py_repr v
  end.

(** ** Index rendering: flat *)

(** The metric columns shared by the flat and the tree renderer. *)
Definition metric_parts (include : list str) (meta : dict) : list str :=
  (if list_has (lit "size") include && dict_has (lit "size") meta
   then match dict_get (lit "size") meta with
        | Some v => [lit "size=" ++ py_format v]
        | None => []
        end
   else []) ++
  (if list_has (lit "lines") include && dict_has (lit "lines") meta
   then match dict_get (lit "lines") meta with
        | Some v => [lit "lines=" ++ py_format v]
        | None => []
        end
   else []).

Definition SEP : str := [32; 9].

(** [_build_index_flat(files, include)] *)
Definition _build_index_flat (files : list (str * dict)) (include : list str) : str :=
  join [NL]
    (map (fun '(rel, meta) => join SEP (rel :: metric_parts include meta)) files)
  ++ [NL].

End Repr.

(** ** Index rendering: tree ([_build_index_tree]) *)

Definition FILE_KEY : str := lit "__file__".

(** The loop over [parts] that files one path into the nested dictionary:
    [cursor] is the dictionary the loop stands in.  A component missing
    from [cursor] is created as an empty dictionary; the last component
    receives the metadata under ["__file__"], any other becomes the new
    cursor.  Walking into a value that is not a dictionary raises. *)
Fixpoint tree_insert (parts : list str) (meta : dict) (cursor : dict)
    : result dict :=
  match parts with
  | [] => Ok cursor
  | part :: rest =>
      let cursor :=
        if dict_has part cursor then cursor else dict_set part (VDict []) cursor in
      match dict_get part cursor with
      | Some (VDict child) =>
          match rest with
          | [] => Ok (dict_set part (VDict (dict_set FILE_KEY (VDict meta) child)) cursor)
          | _ :: _ =>
              child' <- tree_insert rest meta child ;;
              Ok (dict_set part (VDict child') cursor)
          end
      | _ => Raise TypeError
      end
  end.

(** The dictionary built by the first loop of [_build_index_tree]. *)
Fixpoint build_tree (files : list (str * dict)) (tree : dict) : result dict :=
  match files with
  | [] => Ok tree
  | (rel, meta) :: files' =>
      tree' <- tree_insert (split_on SLASH rel) meta tree ;;
      build_tree files' tree'
  end.

(** [sorted(k for k in node.keys() if k != "__file__")], each key with what
    was computed for it. *)
Definition sorted_items {A} (items : list (str * A)) : list (str * A) :=
  stable_sort (fun a b => str_leb (fst a) (fst b))
    (List.filter (fun kv => negb (str_eqb (fst kv) FILE_KEY)) items).

Fixpoint sequence {A} (l : list (result A)) : result (list A) :=
  match l with
  | [] => Ok []
  | r :: l' => a <- r ;; rest <- sequence l' ;; Ok (a :: rest)
  end.

(** [isinstance(child, dict) and "__file__" not in child] *)
Definition is_dir_node (child : pyval) : bool :=
  match child with
  | VDict d => negb (dict_has FILE_KEY d)
  | _ => false
  end.

Section Tree.
Context {U : Unicode}.
Variable include : list str.
Variable depth : option Z.

(** The line of a child that carries ["__file__"]: [child.get("__file__",
    {})] and the metric columns.  In a tree made by [build_tree] the value
    under ["__file__"] is always a dictionary. *)
Definition file_line (prefix k : str) (child : pyval) : result (list str) :=
  match child with
  | VDict d =>
      match dict_get FILE_KEY d with
      | Some (VDict meta) => Ok [join SEP ((prefix ++ k) :: metric_parts include meta)]
      | Some _ => Raise TypeError
      | None => Ok [prefix ++ k]
      end
  | _ => Raise AttributeError
  end.

(** The lines contributed by the ["__file__"] entry of the node itself: the
    first part is the bare prefix, so the line is kept only when the prefix
    has something besides white space. *)
Definition own_line (prefix : str) (node : dict) : result (list str) :=
  match dict_get FILE_KEY node with
  | None => Ok []
  | Some (VDict meta) =>
      match strip prefix with
      | [] => Ok []
      | _ => Ok [join SEP (prefix :: metric_parts include meta)]
      end
  | Some _ => Raise TypeError
  end.

(** [render(node, prefix, level)].  The lines of each key are computed on
    the items as stored and then put in the order of the sorted keys, which
    is the order in which the source visits them. *)
Fixpoint render (node : pyval) (prefix : str) (level : Z) {struct node}
    : result (list str) :=
  match node with
  | VDict entries =>
      if match depth with
         | Some d => d <=? level
         | None => false
         end
      then Ok []
      else
        let per_key :=
          (fix go (es : dict) : list (str * result (list str)) :=
             match es with
             | [] => []
             | (k, child) :: es' =>
                 (k, if is_dir_node child
                     then sub <- render child (prefix ++ lit "  ") (level + 1) ;;
                          Ok ((prefix ++ k ++ lit "/") :: sub)
                     else file_line prefix k child)
                 :: go es'
             end) entries in
        blocks <- sequence (map snd (sorted_items per_key)) ;;
        own <- own_line prefix entries ;;
        Ok (concat blocks ++ own)
  | _ => Raise TypeError
  end.

(** [_build_index_tree(files, include, depth)] *)
Definition _build_index_tree (files : list (str * dict)) : result str :=
  tree <- build_tree files [] ;;
  lines <- render (VDict tree) [] 0 ;;
  Ok (join [NL] lines ++ [NL]).

End Tree.

(** ** Index rendering: JSON ([_build_index_json]) *)

(** A character inside a JSON string written with [ensure_ascii=False]. *)
Definition json_char (c : Z) : str :=
  if c =? 34 then [92; 34]
  else if c =? 92 then [92; 92]
  else if c =? NL then lit "\n"
  else if c =? CR then lit "\r"
  else if c =? 9 then lit "\t"
  else if c =? 8 then lit "\b"
  else if c =? 12 then lit "\f"
  else if (0 <=? c) && (c <? 32)
  then lit "\u00" ++ [hex_digit (c / 16); hex_digit (c mod 16)]
  else [c].

Definition json_str (s : str) : str := [34] ++ flat_map json_char s ++ [34].

Definition indent_of (level : nat) : str := repeat 32 (2 * level).

(** [json.dumps(v, ensure_ascii=False, indent=2)] at nesting [level]. *)
Fixpoint json_dumps (level : nat) (v : pyval) : str :=
  match v with
  | VInt n => str_of_Z n
  | VStr s => json_str s
  | VNone => lit "null"
  | VList [] => lit "[]"
  | VList l =>
      lit "[" ++ [NL] ++
      join (lit "," ++ [NL])
        (map (fun x => indent_of (S level) ++ json_dumps (S level) x) l)
      ++ [NL] ++ indent_of level ++ lit "]"
  | VDict [] => lit "{}"
  | VDict d =>
      lit "{" ++ [NL] ++
      join (lit "," ++ [NL])
        ((fix items (d : dict) : list str :=
            match d with
            | [] => []
            | (k, x) :: d' =>
                (indent_of (S level) ++ json_str k ++ lit ": "
                 ++ json_dumps (S level) x) :: items d'
            end) d)
      ++ [NL] ++ indent_of level ++ lit "}"
  end.

(** [meta.get("size", 0)], as a number. *)
Definition meta_size (meta : dict) : Z :=
  match dict_get (lit "size") meta with
  | Some (VInt n) => n
  | _ => 0
  end.

Definition sum_sizes (files : list (str * dict)) : Z :=
  fold_left (fun acc f => acc + meta_size (snd f)) files 0.

(** [{"path": rel, **meta}] *)
Definition with_path (rel : str) (meta : dict) : dict :=
  fold_left (fun d kv => dict_set (fst kv) (snd kv) d) meta [(lit "path", VStr rel)].

(** [os.path.abspath(p)] from the working directory [cwd]. *)
Definition abspath (cwd p : str) : str := normpath (path_join cwd p).

Section Json.
Context {U : Unicode}.

(** The histogram of extensions, in order of first occurrence. *)
Definition count_by_ext (files : list (str * dict)) : dict :=
  fold_left
    (fun by_ext f =>
       let e := lower (snd (splitext (fst f))) in
       let ext := match e with [] => lit "(none)" | _ => e end in
       let n := match dict_get ext by_ext with
                | Some (VInt n) => n
                | _ => 0
                end in
       dict_set ext (VInt (n + 1)) by_ext)
    files [].

(** [_build_index_json(files, root_dir)] *)
Definition _build_index_json (cwd : str) (files : list (str * dict)) (root_dir : str)
    : str :=
  let payload :=
    VDict
      [(lit "schema_version", VStr (lit "1"));
       (lit "root", VStr (abspath cwd root_dir));
       (lit "files", VList (map (fun f => VDict (with_path (fst f) (snd f))) files));
       (lit "totals",
        VDict [(lit "files", VInt (Z.of_nat (length files)));
               (lit "bytes", VInt (sum_sizes files));
               (lit "by_ext", VDict (count_by_ext files))])] in
  json_dumps 0 payload ++ [NL].

End Json.

(** ** The output envelope: gzip, then base64 *)

(** *** base64 (RFC 4648, standard alphabet) *)

Definition b64_char (i : Z) : Z :=
  if i <? 26 then 65 + i
  else if i <? 52 then 71 + i
  else if i <? 62 then i - 4
  else if i =? 62 then 43
  else 47.

Definition b64_index (c : Z) : option Z :=
  if (65 <=? c) && (c <=? 90) then Some (c - 65)
  else if (97 <=? c) && (c <=? 122) then Some (c - 71)
  else if (48 <=? c) && (c <=? 57) then Some (c + 4)
  else if c =? 43 then Some 62
  else if c =? 47 then Some 63
  else None.

Definition PAD : Z := 61.

(** [base64.b64encode(b)] *)
Fixpoint b64encode (b : bytes) : bytes :=
  match b with
  | [] => []
  | [x] => [b64_char (x / 4); b64_char (x mod 4 * 16); PAD; PAD]
  | [x; y] =>
      [b64_char (x / 4); b64_char (x mod 4 * 16 + y / 16);
       b64_char (y mod 16 * 4); PAD]
  | x :: y :: z :: r =>
      b64_char (x / 4) :: b64_char (x mod 4 * 16 + y / 16)
      :: b64_char (y mod 16 * 4 + z / 64) :: b64_char (z mod 64)
      :: b64encode r
  end.

(** [base64.b64decode(s)] on padded text of the standard alphabet; [None]
    where the library raises [binascii.Error]. *)
Fixpoint b64decode (s : bytes) : option bytes :=
  match s with
  | [] => Some []
  | a :: b :: c :: d :: r =>
      match b64_index a, b64_index b with
      | Some i, Some j =>
          if (c =? PAD) && (d =? PAD) then
            match r with
            | [] => Some [i * 4 + j / 16]
            | _ => None
            end
          else
            match b64_index c with
            | Some k =>
                if d =? PAD then
                  match r with
                  | [] => Some [i * 4 + j / 16; j mod 16 * 16 + k / 4]
                  | _ => None
                  end
                else
                  match b64_index d, b64decode r with
                  | Some l, Some rest =>
                      Some (i * 4 + j / 16 :: j mod 16 * 16 + k / 4
                            :: k mod 4 * 64 + l :: rest)
                  | _, _ => None
                  end
            | None => None
            end
      | _, _ => None
      end
  | _ => None
  end.

(** *** gzip (RFC 1952) *)

(** Four bytes, least significant first. *)
Definition le32 (n : Z) : bytes :=
  [n mod 256; n / 256 mod 256; n / 65536 mod 256; n / 16777216 mod 256].

Definition of_le32 (b : bytes) : option Z :=
  match b with
  | [b0; b1; b2; b3] => Some (b0 + 256 * b1 + 65536 * b2 + 16777216 * b3)
  | _ => None
  end.

Definition crc_step (crc : Z) : Z :=
  if Z.testbit crc 0 then Z.lxor (Z.shiftr crc 1) 3988292384
  else Z.shiftr crc 1.

(** [zlib.crc32(data)] *)
Definition crc32 (data : bytes) : Z :=
  Z.lxor
    (fold_left
       (fun crc b => Nat.iter 8 crc_step (Z.lxor crc b))
       data 4294967295)
    4294967295.

Definition is_byte (b : Z) : Prop := 0 <= b < 256.

(** The DEFLATE coder is zlib's, outside this repository.  What the
    envelope needs of it: the compressed stream is a byte string and a
    function of the data, and inflating it gives the data back and stops
    where the stream ends. *)
Class Deflate := {
  deflate : bytes -> bytes;
  inflate : bytes -> option (bytes * bytes);
  deflate_bytes :
    forall data, Forall is_byte data -> Forall is_byte (deflate data);
  inflate_deflate :
    forall data rest, inflate (deflate data ++ rest) = Some (data, rest)
}.

Section Gzip.
Context {D : Deflate}.

(** What [gzip.GzipFile(fileobj=gz_buf, mode="wb")] leaves in [gz_buf] once
    [raw] is written and the file closed.  The buffer has no name, so the
    header has no flags; no [mtime] is passed, so the header carries the
    time [now] at which the stream is opened; the default level is 9. *)
Definition gzip_write (now : Z) (raw : bytes) : bytes :=
  [31; 139; 8; 0] ++ le32 now ++ [2; 255]
  ++ deflate raw
  ++ le32 (crc32 raw) ++ le32 (Z.of_nat (length raw)).

(** [gzip.decompress(b)] for one member without optional header fields. *)
Definition gunzip (b : bytes) : option bytes :=
  match b with
  | 31 :: 139 :: 8 :: 0 :: _ :: _ :: _ :: _ :: _ :: _ :: body =>
      match inflate body with
      | Some (data, trailer) =>
          match of_le32 (firstn 4 trailer), of_le32 (skipn 4 trailer) with
          | Some crc, Some isize =>
              if (crc =? crc32 data mod 4294967296)
                 && (isize =? Z.of_nat (length data) mod 4294967296)
              then Some data else None
          | _, _ => None
          end
      | None => None
      end
  | _ => None
  end.

(** The two wrapping stages of [pack_directory]. *)
Definition envelope (gzip_out base64_out : bool) (now : Z) (raw_bytes : bytes)
    : bytes :=
  let out_bytes := raw_bytes in
  let out_bytes := if gzip_out then gzip_write now raw_bytes else out_bytes in
  if base64_out then b64encode out_bytes else out_bytes.

End Gzip.

(** A self-delimiting stand-in for the DEFLATE coder, to run the model:
    each byte is preceded by a 1 and the stream ends with a 0. *)
Fixpoint toy_deflate (data : bytes) : bytes :=
  match data with
  | [] => [0]
  | b :: data' => 1 :: b :: toy_deflate data'
  end.

Fixpoint toy_inflate (s : bytes) : option (bytes * bytes) :=
  match s with
  | 0 :: rest => Some ([], rest)
  | 1 :: b :: s' =>
      match toy_inflate s' with
      | Some (data, rest) => Some (b :: data, rest)
      | None => None
      end
  | _ => None
  end.

(** ** The directory walk and the bundle writer ([pack_directory]) *)

(** A directory as [os.walk] sees it: the entries of each directory in the
    order of the listing, each a regular file or a directory (symbolic
    links are left out).  A file that cannot be opened has
    [readable = false].  Walking something that is not a directory yields
    nothing. *)
Inductive fsnode : Type :=
| FFile (readable : bool) (data : bytes)
| FDir (entries : list (str * fsnode)).

(** A file met by the walk. *)
Record walked := {
  w_rel : str;          (* rel_path *)
  w_readable : bool;
  w_data : bytes
}.

Section Pack.
Context {U : Unicode} {D : Deflate}.

(** The files that the loop of [pack_directory] visits, in order: for each
    directory the walk yields, its files; a subdirectory whose relative
    path is excluded is removed from [dirs] and never entered. *)
Fixpoint walk (exclude : list str) (rel_root : str) (top : fsnode)
    {struct top} : list walked :=
  match top with
  | FFile _ _ => []
  | FDir entries =>
      let files :=
        flat_map
          (fun e =>
             match snd e with
             | FFile r data =>
                 [{| w_rel := normpath (path_join rel_root (fst e));
                     w_readable := r; w_data := data |}]
             | FDir _ => []
             end) entries in
      let below :=
        (fix dirs (es : list (str * fsnode)) : list walked :=
           match es with
           | [] => []
           | (d, sub) :: es' =>
               let rel_d := normpath (path_join rel_root d) in
               match sub with
               | FDir _ =>
                   if _should_exclude rel_d exclude then []
                   else walk exclude rel_d sub
               | FFile _ _ => []
               end ++ dirs es'
           end) entries in
      files ++ below
  end.

(** The accumulators of the loop. *)
Record pack_state := {
  buf : str;
  processed : list str;
  skipped : list str;
  index_files : list (str * dict)
}.

Definition init_state : pack_state :=
  {| buf := []; processed := []; skipped := []; index_files := [] |}.

(** Truth value of an optional string. *)
Definition truthy (s : option str) : bool :=
  match s with
  | Some (_ :: _) => true
  | _ => false
  end.

(** [cfg.write_index or cfg.index_only or cfg.index_output] *)
Definition indexing (cfg : PackConfig) : bool :=
  write_index cfg || index_only cfg || truthy (index_output cfg).

Definition count_lines (content : str) : Z :=
  count_char NL content
  + (if negb (str_eqb content []) && negb (endswith content [NL]) then 1 else 0).

(** The metadata collected for one processed file. *)
Definition file_meta (rel_path : str) (data : bytes) (content : str) : dict :=
  [(lit "size", VInt (Z.of_nat (length data)));
   (lit "lines", VInt (count_lines content));
   (lit "ext", match snd (splitext rel_path) with
               | [] => VNone
               | e => VStr e
               end)].

(** The text and the two separators of one file, after the optional
    transform. *)
Definition file_block (cfg : PackConfig) (rel_path content : str) : str :=
  if compress cfg then
    (lit "--- START OF FILE: " ++ rel_path ++ lit " --- ")
    ++ _compress_text content (max_compress cfg)
    ++ (lit " --- END OF FILE: " ++ rel_path ++ lit " --- ")
  else
    (lit "--- START OF FILE: " ++ rel_path ++ lit " ---" ++ [NL])
    ++ content
    ++ ([NL] ++ lit "--- END OF FILE: " ++ rel_path ++ lit " ---" ++ [NL; NL]).

(** One turn of [for fn in files]. *)
Definition pack_step (cfg : PackConfig) (st : pack_state) (f : walked) : pack_state :=
  let rel_path := w_rel f in
  if _should_exclude rel_path (the_list (exclude_globs cfg))
     || negb (_should_include rel_path (the_list (include_globs cfg)))
  then {| buf := buf st; processed := processed st;
          skipped := skipped st ++ [rel_path]; index_files := index_files st |}
  else if negb (w_readable f)
  then {| buf := buf st; processed := processed st;
          skipped := skipped st ++ [rel_path]; index_files := index_files st |}
  else
    let content := read_text (w_data f) in
    {| buf := if index_only cfg then buf st
              else buf st ++ file_block cfg rel_path content;
       processed := processed st ++ [rel_path];
       skipped := skipped st;
       index_files :=
         if indexing cfg
         then index_files st ++ [(rel_path, file_meta rel_path (w_data f) content)]
         else index_files st |}.

(** Does the loop process the file, rather than skip it? *)
Definition passes (cfg : PackConfig) (f : walked) : bool :=
  negb (_should_exclude (w_rel f) (the_list (exclude_globs cfg))
        || negb (_should_include (w_rel f) (the_list (include_globs cfg))))
  && w_readable f.

(** The files the run processes, in order. *)
Definition kept (cfg : PackConfig) (tree : fsnode) : list walked :=
  List.filter (passes cfg) (walk (the_list (exclude_globs cfg)) [] tree).

(** What a processed file adds to the body and to the index. *)
Definition block_of (cfg : PackConfig) (f : walked) : str :=
  file_block cfg (w_rel f) (read_text (w_data f)).

Definition entry_of (f : walked) : str * dict :=
  (w_rel f, file_meta (w_rel f) (w_data f) (read_text (w_data f))).

(** Two exclude lists that exclude the same paths. *)
Definition same_exclusion (e1 e2 : list str) : Prop :=
  forall p, _should_exclude p e1 = _should_exclude p e2.

(** The state when the walk is over. *)
Definition pack_loop (cfg : PackConfig) (tree : fsnode) : pack_state :=
  fold_left (pack_step cfg)
    (walk (the_list (exclude_globs cfg)) [] tree) init_state.

(** [index_files.sort(key=lambda x: x[0])] *)
Definition sort_index (files : list (str * dict)) : list (str * dict) :=
  stable_sort (fun a b => str_leb (fst a) (fst b)) files.

(** The rendered index in the configured style. *)
Definition render_index (cwd : str) (cfg : PackConfig) (files : list (str * dict))
    : result str :=
  if str_eqb (index_style cfg) (lit "json")
  then Ok (_build_index_json cwd files (input_dir cfg))
  else if str_eqb (index_style cfg) (lit "tree")
  then _build_index_tree (the_list (index_include cfg)) (index_depth cfg) files
  else Ok (_build_index_flat files (the_list (index_include cfg))).

(** [round(bundle_size / total_bytes, 2) if total_bytes > 0 else 0].  The
    quotient is a float in the source; it is kept as the two integers it
    is computed from. *)
Inductive ratio : Type :=
| RatioZero
| RatioRound2 (bundle_size total_bytes : Z).

Record pack_stats := {
  bundle_size : Z;
  files_processed : Z;
  files_skipped : Z;
  total_bytes : Z;
  compression_ratio : ratio
}.

(** What a run leaves behind and returns: the two files written, the
    returned pair, the state of the caller's config object, and the locals
    [processed], [skipped], [index_files], [buf] and [index_text] as they
    stand at the end of the run. *)
Record pack_output := {
  out_path : str;                        (* the returned path *)
  out_bytes : bytes;                     (* content of the output file *)
  index_file : option (str * bytes);     (* the separate index, if written *)
  stats : pack_stats;
  cfg_after : PackConfig;                (* the caller's config object *)
  run : pack_state;
  index_text : str
}.

(** The part of the result that reaches the disk. *)
Definition written (o : pack_output) : bytes * option (str * bytes) :=
  (out_bytes o, index_file o).

(** The index block put in front of the bundle body. *)
Definition index_prelude (cfg : PackConfig) (index_text : str) : str :=
  if negb (str_eqb index_text []) && negb (truthy (index_output cfg))
  then lit "--- FILE INDEX START ---" ++ [NL] ++ index_text
       ++ lit "--- FILE INDEX END ---" ++ [NL; NL]
  else [].

(** The text handed to the envelope. *)
Definition bundle_text (cfg : PackConfig) (index_text body : str) : str :=
  if index_only cfg then []
  else index_prelude cfg index_text ++ body.

(** The body of [pack_directory] once the defaults are applied, run in
    working directory [cwd] at time [now] on the input directory [tree]. *)
Definition pack_body (cwd : str) (now : Z) (tree : fsnode) (cfg : PackConfig)
    : result pack_output :=
  let st := pack_loop cfg tree in
  let sorted := if indexing cfg then sort_index (index_files st) else index_files st in
  index_text <- (if indexing cfg then render_index cwd cfg sorted else Ok []) ;;
  index_written <-
    match index_output cfg with
    | Some p =>
        if indexing cfg && truthy (index_output cfg)
        then b <- utf8_encode index_text ;; Ok (Some (p, b))
        else Ok None
    | None => Ok None
    end ;;
  let data := bundle_text cfg index_text (buf st) in
  raw_bytes <- utf8_encode data ;;
  let out := envelope (gzip_out cfg) (base64_out cfg) now raw_bytes in
  let total := sum_sizes sorted in
  Ok {| out_path := abspath cwd (output_file cfg);
        out_bytes := out;
        index_file := index_written;
        stats :=
          {| bundle_size := Z.of_nat (length out);
             files_processed := Z.of_nat (length (processed st));
             files_skipped := Z.of_nat (length (skipped st));
             total_bytes := total;
             compression_ratio :=
               if total >? 0 then RatioRound2 (Z.of_nat (length out)) total
               else RatioZero |};
        cfg_after := cfg;
        run := st;
        index_text := index_text |}.

(** [pack_directory(cfg)] *)
Definition pack_directory (cwd : str) (now : Z) (tree : fsnode)
    (cfg : PackConfig) : result pack_output :=
  cfg <- apply_defaults cfg ;;
  pack_body cwd now tree cfg.

End Pack.

(** Every file below a directory, pruning aside, in the order of the walk:
    each with the relative paths of the directories that lie between the
    top and the file, outermost first, computed as the walk computes
    [rel_d]. *)
Fixpoint located (rel_root : str) (above : list str) (top : fsnode)
    {struct top} : list (walked * list str) :=
  match top with
  | FFile _ _ => []
  | FDir entries =>
      let files :=
        flat_map
          (fun e =>
             match snd e with
             | FFile r data =>
                 [({| w_rel := normpath (path_join rel_root (fst e));
                      w_readable := r; w_data := data |}, above)]
             | FDir _ => []
             end) entries in
      let below :=
        (fix dirs (es : list (str * fsnode)) : list (walked * list str) :=
           match es with
           | [] => []
           | (d, sub) :: es' =>
               let rel_d := normpath (path_join rel_root d) in
               match sub with
               | FDir _ => located rel_d (above ++ [rel_d]) sub
               | FFile _ _ => []
               end ++ dirs es'
           end) entries in
      files ++ below
  end.

(** ** Sources ([corpus/mcp/sources.py]) *)

Record FileHit := {
  hit_path : str;
  hit_line : Z;
  hit_snippet : str;
  hit_score : Z
}.

(** The optional line range of [get_file]: lines are numbered from 1, and
    reading stops at the first line past [end]. *)
Fixpoint slice_lines (start end_ : option Z) (i : Z) (lines : list str) : list str :=
  match lines with
  | [] => []
  | line :: rest =>
      if match start with Some s => i <? s | None => false end
      then slice_lines start end_ (i + 1) rest
      else if match end_ with Some e => e <? i | None => false end
      then []
      else line :: slice_lines start end_ (i + 1) rest
  end.

Definition select_lines (start end_ : option Z) (content : str) : str :=
  match start, end_ with
  | None, None => content
  | _, _ => concat (slice_lines start end_ 1 (lines_keepends content))
  end.

(** [results[:max_results]] *)
Definition take_upto {A} (max_results : Z) (l : list A) : list A :=
  if max_results <? 0
  then firstn (Z.to_nat (Z.of_nat (length l) + max_results)) l
  else firstn (Z.to_nat max_results) l.

(** [results.sort(key=lambda x: x.score, reverse=True)] *)
Definition sort_hits (results : list FileHit) : list FileHit :=
  stable_sort (fun a b => hit_score b <=? hit_score a) results.

Definition source_exts : list str :=
  [lit ".py"; lit ".js"; lit ".ts"; lit ".go"; lit ".rs"; lit ".java";
   lit ".c"; lit ".cpp"].

Definition config_exts : list str :=
  [lit ".json"; lit ".yaml"; lit ".yml"; lit ".toml"].

Definition noise_patterns : list str :=
  [lit "changelog"; lit "package-lock"; lit "yarn.lock"; lit "go.sum";
   lit ".min."; lit "dist/"; lit "build/"; lit "node_modules/"].

(** Does [sub] occur in [s], characters compared with [eq]? *)
Fixpoint contains_by (eq : Z -> Z -> bool) (sub s : str) : bool :=
  prefix_b eq s sub ||
  match s with
  | [] => false
  | _ :: s' => contains_by eq sub s'
  end.

Section Search.
Context {U : Unicode}.

(** [re.findall(r'\b\w+\b', query)]: the maximal runs of word characters. *)
Fixpoint words_from (cur : str) (s : str) : list str :=
  match s with
  | [] => match cur with [] => [] | _ => [rev cur] end
  | c :: s' =>
      if is_word c then words_from (c :: cur) s'
      else match cur with
           | [] => words_from [] s'
           | _ => rev cur :: words_from [] s'
           end
  end.

(** The tokens of a query: its words, or the whole query when it has
    none. *)
Definition tokenize (query : str) : list str :=
  match words_from [] query with
  | [] => [query]
  | tokens => tokens
  end.

(** [re.compile(re.escape(token), flags).search(line) is not None] *)
Definition pattern_search (case_sensitive : bool) (token line : str) : bool :=
  if case_sensitive then contains_by Z.eqb token line
  else contains_by re_ieq token line.

(** [sum(1 for pattern in patterns if pattern.search(line))] *)
Definition count_matches (case_sensitive : bool) (tokens : list str) (line : str) : Z :=
  Z.of_nat (length (List.filter (fun t => pattern_search case_sensitive t line) tokens)).

(** The number of distinct query tokens that match a line: what the count
    above would be if a repeated token were counted once. *)
Definition distinct_matches (case_sensitive : bool) (tokens : list str)
    (line : str) : Z :=
  Z.of_nat
    (length (dedup (List.filter (fun t => pattern_search case_sensitive t line)
                      tokens))).

(** [sum(1 for token in tokens if token.lower() in filename)] *)
Definition filename_matches (tokens : list str) (filename : str) : Z :=
  Z.of_nat (length (List.filter (fun t => contains (lower t) filename) tokens)).

Definition file_type_bonus (filename : str) : Z :=
  if endswith filename (lit ".md") then 15
  else if existsb (endswith filename) source_exts then 10
  else if existsb (endswith filename) config_exts then 5
  else 0.

(** The loop over [noise_patterns] stops at the first one found. *)
Definition is_noise (path_lower : str) : bool :=
  existsb (fun noise => contains noise path_lower) noise_patterns.

(** [calculate_score(path, line_matches)], the same text in both sources. *)
Definition calculate_score (tokens : list str) (path : str) (line_matches : Z) : Z :=
  let score := 0 in
  let path_lower := lower path in
  let filename := basename path_lower in
  let score := score + line_matches * 10 in
  let score := score + filename_matches tokens filename * 20 in
  let score := score + file_type_bonus filename in
  let score := if is_noise path_lower then score - 30 else score in
  Z.max score 0.

(** The hits of one file: every line on which some pattern matches. *)
Fixpoint scan_lines (case_sensitive : bool) (tokens : list str) (rel : str)
    (i : Z) (lines : list str) : list FileHit :=
  match lines with
  | [] => []
  | line :: rest =>
      let matches := count_matches case_sensitive tokens line in
      (if matches >? 0
       then [{| hit_path := rel; hit_line := i; hit_snippet := strip line;
                hit_score := calculate_score tokens rel matches |}]
       else [])
      ++ scan_lines case_sensitive tokens rel (i + 1) rest
  end.

End Search.

(** *** The live directory: [DirSource] *)

Definition is_dir (n : fsnode) : bool :=
  match n with
  | FDir _ => true
  | FFile _ _ => false
  end.

Fixpoint lookup_entry (name : str) (entries : list (str * fsnode)) : option fsnode :=
  match entries with
  | [] => None
  | (n, x) :: rest => if str_eqb name n then Some x else lookup_entry name rest
  end.

(** Path resolution as the operating system does it, one component at a
    time from the node [cur]; [above] holds the directories passed on the
    way down, nearest first.  An empty component or [.] stays, [..] goes
    to the parent (the root is its own parent), and every component needs
    a directory to be looked up in. *)
Fixpoint resolve (above : list fsnode) (cur : fsnode) (comps : list str)
    : option fsnode :=
  match comps with
  | [] => Some cur
  | c :: comps' =>
      match cur with
      | FFile _ _ => None
      | FDir entries =>
          if str_eqb c [] || str_eqb c (lit ".") then resolve above cur comps'
          else if str_eqb c (lit "..") then
            match above with
            | parent :: above' => resolve above' parent comps'
            | [] => resolve [] cur comps'
            end
          else match lookup_entry c entries with
               | Some child => resolve (cur :: above) child comps'
               | None => None
               end
      end
  end.

(** [open(abs_path, "r", ...)] on the file system whose root is [fs], for
    an absolute path. *)
Definition open_read (fs : fsnode) (abs_path : str) : result bytes :=
  match resolve [] fs (split_on SLASH abs_path) with
  | Some (FFile true data) => Ok data
  | Some (FFile false _) => Raise (OSError abs_path)
  | Some (FDir _) => Raise (OSError abs_path)
  | None => Raise (FileNotFoundError abs_path)
  end.

(** Every file below a directory, as the fallback walk of
    [DirSource.__init__] names it. *)
Fixpoint walk_all (base : str) (top : fsnode) {struct top} : list str :=
  match top with
  | FFile _ _ => []
  | FDir entries =>
      flat_map
        (fun e =>
           match snd e with
           | FFile _ _ =>
               [match base with
                | [] => fst e
                | _ => normpath (path_join base (fst e))
                end]
           | FDir _ => []
           end) entries
      ++ (fix dirs (es : list (str * fsnode)) : list str :=
            match es with
            | [] => []
            | (d, sub) :: es' =>
                match sub with
                | FDir _ => walk_all (normpath (path_join base d)) sub
                | FFile _ _ => []
                end ++ dirs es'
            end) entries
  end.

Module DirSource.

Record t := {
  root_dir : str;
  _files : list str
}.

(** [DirSource(root_dir)], called in working directory [cwd].  [indexed] is
    the list of paths read from the JSON index at the root, empty when
    there is none or it cannot be read; the walk is the fallback. *)
Definition init (cwd : str) (fs : fsnode) (root : str) (indexed : list str) : t :=
  let root_dir := abspath cwd root in
  let files :=
    match indexed with
    | [] =>
        match resolve [] fs (split_on SLASH root_dir) with
        | Some top => walk_all [] top
        | None => []
        end
    | _ => indexed
    end in
  {| root_dir := root_dir; _files := stable_sort str_leb files |}.

Definition list_files (self : t) : list str := _files self.

(** [DirSource.get_file(path, start, end)] *)
Definition get_file (fs : fsnode) (self : t) (path : str) (start end_ : option Z)
    : result str :=
  let abs_path := path_join (root_dir self) path in
  data <- open_read fs abs_path ;;
  Ok (select_lines start end_ (read_text data)).

Section WithTables.
Context {U : Unicode}.

(** The hits of every listed file that can be opened, in listing order. *)
Definition candidates (fs : fsnode) (self : t) (case_sensitive : bool)
    (tokens : list str) : list FileHit :=
  flat_map
    (fun rel =>
       match open_read fs (path_join (root_dir self) rel) with
       | Ok data =>
           scan_lines case_sensitive tokens rel 1 (lines_keepends (read_text data))
       | Raise _ => []
       end) (_files self).

(** [DirSource.search(query, max_results, case_sensitive)] *)
Definition search (fs : fsnode) (self : t) (query : str) (max_results : Z)
    (case_sensitive : bool) : list FileHit :=
  let tokens := tokenize query in
  take_upto max_results (sort_hits (candidates fs self case_sensitive tokens)).

End WithTables.
End DirSource.

(** *** The packed bundle: [BundleSource] *)

Definition START_PREFIX : bytes := lit "--- START OF FILE: ".
Definition END_PREFIX : bytes := lit "--- END OF FILE: ".

(** What must follow the captured group: the closing dashes, then white
    space up to the end of the line. *)
Definition marker_tail (r : bytes) : bool :=
  startswith r (lit " ---") && forallb is_space_b (skipn 4 r).

(** The group [(.+)] of the marker patterns: greedy, backing off one byte at
    a time until the rest of the pattern matches; [.] is any byte but a
    newline. *)
Fixpoint greedy_group (s : bytes) : option bytes :=
  match s with
  | [] => None
  | c :: s' =>
      if c =? NL then None
      else match greedy_group s' with
           | Some p => Some (c :: p)
           | None => if marker_tail s' then Some [c] else None
           end
  end.

(** [RE.match(raw_line)] for the pattern [^<prefix>(.+) ---\s*$] on bytes:
    the captured group, if the line matches. *)
Definition match_marker (prefix raw_line : bytes) : option bytes :=
  if startswith raw_line prefix
  then greedy_group (skipn (length prefix) raw_line)
  else None.

Definition START_RE_B : bytes -> option bytes := match_marker START_PREFIX.
Definition END_RE_B : bytes -> option bytes := match_marker END_PREFIX.

(** The marker lines the writer produces around a file, as bytes, for the
    encoded path [g]. *)
Definition start_line (g : bytes) : bytes :=
  START_PREFIX ++ g ++ lit " ---" ++ [NL].

Definition end_line (g : bytes) : bytes :=
  END_PREFIX ++ g ++ lit " ---" ++ [NL].

(** A line that is neither marker. *)
Definition plain_line (l : bytes) : Prop :=
  START_RE_B l = None /\ END_RE_B l = None.

(** Text made of complete lines: empty, or ending with a newline. *)
Definition complete_lines (a : str) : Prop :=
  a = [] \/ exists a', a = a' ++ [NL].

(** One file of a bundle, as bytes: its START line for path [g], the lines
    [body] between the markers, an END line naming [q], and the blank line
    that follows. *)
Definition block_bytes (g body q : bytes) : bytes :=
  start_line g ++ body ++ end_line q ++ [NL].

(** The spans that a scan starting at offset [o] records for a sequence of
    such blocks, given as (encoded path, body). *)
Fixpoint spans (o : Z) (entries : list (bytes * bytes)) : list (str * (Z * Z)) :=
  match entries with
  | [] => []
  | (g, body) :: rest =>
      let s := o + Z.of_nat (length (start_line g)) in
      (utf8_decode_ignore g, (s, s + Z.of_nat (length body)))
      :: spans (o + Z.of_nat (length (block_bytes g body g))) rest
  end.

Definition blocks (entries : list (bytes * bytes)) : bytes :=
  concat (map (fun e => block_bytes (fst e) (snd e) (fst e)) entries).

Definition record_spans (l : list (str * (Z * Z))) (m : gmap str (Z * Z))
    : gmap str (Z * Z) :=
  fold_left (fun m kv => <[fst kv := snd kv]> m) l m.

(** What the scan needs of a block: a path that the START pattern takes
    whole, and a body of complete lines none of which is a marker. *)
Definition wf_entry (e : bytes * bytes) : Prop :=
  fst e <> [] /\ ~ In NL (fst e) /\
  complete_lines (snd e) /\ Forall plain_line (lines_keepends (snd e)).

(** The block of a processed file as the reader sees it: the encoded path,
    and between the markers the encoded content followed by the newline
    that the writer puts in front of the END marker. *)
Definition file_entry_bytes (f : walked) : bytes * bytes :=
  (flat_map utf8_enc_cp (w_rel f),
   flat_map utf8_enc_cp (read_text (w_data f)) ++ [NL]).

(** A file that the marker format can carry: its path is not empty and has
    no newline, and no line of its content reads as a marker. *)
Definition clean_file (f : walked) : Prop :=
  w_rel f <> [] /\ ~ In NL (w_rel f) /\
  Forall plain_line
    (lines_keepends (flat_map utf8_enc_cp (read_text (w_data f)) ++ [NL])).

Module BundleSource.

(** The variables of the scanning loop of [_build_index]. *)
Record scan := {
  offset : Z;
  current_path : option str;
  start_pos : option Z;
  index : gmap str (Z * Z)
}.

Definition scan0 : scan :=
  {| offset := 0; current_path := None; start_pos := None; index := ∅ |}.

(** One turn of [for raw_line in fb]. *)
Definition scan_step (st : scan) (raw_line : bytes) : scan :=
  let line_len := Z.of_nat (length raw_line) in
  match START_RE_B raw_line with
  | Some g =>
      {| offset := offset st + line_len;
         current_path := Some (utf8_decode_ignore g);
         start_pos := Some (offset st + line_len);
         index := index st |}
  | None =>
      match END_RE_B raw_line, current_path st, start_pos st with
      | Some _, Some path, Some start =>
          {| offset := offset st + line_len;
             current_path := None;
             start_pos := None;
             index := <[path := (start, offset st)]> (index st) |}
      | _, _, _ =>
          {| offset := offset st + line_len;
             current_path := current_path st;
             start_pos := start_pos st;
             index := index st |}
      end
  end.

(** The second pass, taken when no marker pair was found: the stripped,
    non-empty lines between the index brackets. *)
Fixpoint index_names (in_idx : bool) (lines : list str) : list str :=
  match lines with
  | [] => []
  | line :: rest =>
      if startswith line (lit "--- FILE INDEX START ---") then index_names true rest
      else if startswith line (lit "--- FILE INDEX END ---") then []
      else if in_idx then
        match strip line with
        | [] => index_names in_idx rest
        | name => name :: index_names in_idx rest
        end
      else index_names in_idx rest
  end.

Record t := {
  bundle : bytes;                   (* the file at bundle_path *)
  _index : gmap str (Z * Z);
  _files_only : list str
}.

(** [BundleSource(bundle_path)] for a bundle file holding [data]. *)
Definition init (data : bytes) : t :=
  let idx := index (fold_left scan_step (lines_keepends data) scan0) in
  {| bundle := data;
     _index := idx;
     _files_only :=
       if bool_decide (idx = ∅)
       then index_names false (lines_keepends (read_text data))
       else [] |}.

Definition list_files (self : t) : list str :=
  if bool_decide (_index self = ∅)
  then stable_sort str_leb (dedup (_files_only self))
  else stable_sort str_leb (map fst (map_to_list (_index self))).

(** [BundleSource.get_file(path, start, end)] *)
Definition get_file (self : t) (path : str) (start end_ : option Z) : result str :=
  match _index self !! path with
  | None => Raise (FileNotFoundError path)
  | Some (start_pos, end_pos) =>
      let data := slice (bundle self) start_pos end_pos in
      Ok (select_lines start end_ (utf8_decode_ignore data))
  end.

Section WithTables.
Context {U : Unicode}.

Definition candidates (self : t) (case_sensitive : bool) (tokens : list str)
    : list FileHit :=
  flat_map
    (fun rel =>
       match get_file self rel None None with
       | Ok content =>
           scan_lines case_sensitive tokens rel 1 (lines_keepends content)
       | Raise _ => []
       end) (list_files self).

(** [BundleSource.search(query, max_results, case_sensitive)] *)
Definition search (self : t) (query : str) (max_results : Z)
    (case_sensitive : bool) : list FileHit :=
  let tokens := tokenize query in
  take_upto max_results (sort_hits (candidates self case_sensitive tokens)).

End WithTables.
End BundleSource.

(** ** Sample inputs

    Concrete configurations, directories and bundles on which the model is
    run in the statements below. *)

(** [PackConfig(index_style="table", base64_out=True)] *)
Definition cfg_bad_style_b64 : PackConfig := {|
  input_dir := lit "."; output_file := lit "corpus-out.txt";
  include_globs := None; exclude_globs := None;
  verbose := false; compress := false; max_compress := false;
  gzip_out := false; base64_out := true;
  write_index := false; index_only := false;
  index_style := lit "table"; index_output := None;
  index_include := None; index_depth := None |}.

(** [PackConfig(index_style="table")] *)
Definition cfg_bad_style : PackConfig := {|
  input_dir := lit "."; output_file := lit "corpus-out.txt";
  include_globs := None; exclude_globs := None;
  verbose := false; compress := false; max_compress := false;
  gzip_out := false; base64_out := false;
  write_index := false; index_only := false;
  index_style := lit "table"; index_output := None;
  index_include := None; index_depth := None |}.

(** The stand-in coder meets the requirements on the DEFLATE coder. *)
Lemma toy_deflate_bytes (data : bytes) :
  Forall is_byte data -> Forall is_byte (toy_deflate data).
Proof.
  induction 1 as [|b data Hb _ IH]; simpl.
  - repeat constructor; lia.
  - constructor; [unfold is_byte; lia|]. by constructor.
Qed.

Lemma toy_inflate_deflate (data rest : bytes) :
  toy_inflate (toy_deflate data ++ rest) = Some (data, rest).
Proof.
  induction data as [|b data IH]; simpl; [done|]. by rewrite IH.
Qed.

Definition toy_codec : Deflate := {|
  deflate := toy_deflate;
  inflate := toy_inflate;
  deflate_bytes := toy_deflate_bytes;
  inflate_deflate := toy_inflate_deflate
|}.

(** The directory of the packing test: [a/keep.txt], [a/drop.log] and
    [node_modules/mod.js]. *)
Definition tree_sample : fsnode :=
  FDir [(lit "a", FDir [(lit "keep.txt", FFile true (lit "hello world"));
                        (lit "drop.log", FFile true (lit "ignore me"))]);
        (lit "node_modules", FDir [(lit "mod.js", FFile true (lit "npm"))])].

(** A directory holding the single file [f.txt] with the text "data". *)
Definition tree_one_file : fsnode :=
  FDir [(lit "f.txt", FFile true (lit "data"))].

(** A directory whose only file sits in [build/]. *)
Definition tree_build : fsnode :=
  FDir [(lit "build", FDir [(lit "bar.txt", FFile true (lit "x"))])].

(** [PackConfig(include_globs=["**/*.txt"], gzip_out=True, base64_out=True)] *)
Definition cfg_gz_b64 : PackConfig := {|
  input_dir := lit "src"; output_file := lit "out.gz.b64";
  include_globs := Some [lit "**/*.txt"]; exclude_globs := None;
  verbose := false; compress := false; max_compress := false;
  gzip_out := true; base64_out := true;
  write_index := false; index_only := false;
  index_style := lit "flat"; index_output := None;
  index_include := None; index_depth := None |}.

(** [PackConfig(gzip_out=True)] *)
Definition cfg_gz : PackConfig := with_envelope true false default_config.

(** [PackConfig(include_globs=["*.txt"], exclude_globs=["b*"])] *)
Definition cfg_exclude_b : PackConfig := {|
  input_dir := lit "."; output_file := lit "corpus-out.txt";
  include_globs := Some [lit "*.txt"]; exclude_globs := Some [lit "b*"];
  verbose := false; compress := false; max_compress := false;
  gzip_out := false; base64_out := false;
  write_index := true; index_only := false;
  index_style := lit "flat"; index_output := None;
  index_include := None; index_depth := None |}.

(** [PackConfig(include_globs=["**/*.txt"], exclude_globs=["**/a/**"],
    write_index=True)] *)
Definition cfg_exclude_a : PackConfig := {|
  input_dir := lit "."; output_file := lit "corpus-out.txt";
  include_globs := Some [lit "**/*.txt"]; exclude_globs := Some [lit "**/a/**"];
  verbose := false; compress := false; max_compress := false;
  gzip_out := false; base64_out := false;
  write_index := true; index_only := false;
  index_style := lit "flat"; index_output := None;
  index_include := None; index_depth := None |}.

(** [PackConfig(include_globs=["**/*.txt"],
    exclude_globs=["**/node_modules/**"], write_index=True)] *)
Definition cfg_sample : PackConfig := {|
  input_dir := lit "src"; output_file := lit "out.txt";
  include_globs := Some [lit "**/*.txt"];
  exclude_globs := Some [lit "**/node_modules/**"];
  verbose := true; compress := false; max_compress := false;
  gzip_out := false; base64_out := false;
  write_index := true; index_only := false;
  index_style := lit "flat"; index_output := None;
  index_include := Some [lit "size"; lit "lines"]; index_depth := None |}.

(** The file [a/keep.txt] of [tree_sample], as the walk meets it. *)
Definition keep_txt : walked :=
  {| w_rel := lit "a/keep.txt"; w_readable := true;
     w_data := lit "hello world" |}.

(** A bundle whose only block opens with path [a] and closes with an END
    marker naming [b]. *)
Definition bundle_mismatch : bytes :=
  block_bytes (lit "a") (lit "x" ++ [NL]) (lit "b").

(** The sorted index entries of a directory holding [a.txt] and
    [b/c.txt]. *)
Definition index_files_mixed : list (str * dict) :=
  [(lit "a.txt", [(lit "size", VInt 1)]);
   (lit "b/c.txt", [(lit "size", VInt 2)])].

(** A file system with the served directory [/data] and a file beside
    it. *)
Definition fs_sample : fsnode :=
  FDir [(lit "data", FDir [(lit "pub.txt", FFile true (lit "public"))]);
        (lit "secret.txt", FFile true (lit "top secret"))].

(** [DirSource("/data")] *)
Definition dir_sample : DirSource.t :=
  DirSource.init (lit "/") fs_sample (lit "/data") [].

(** A file system to search: [/w/a.txt], [/w/dist/foo] and [/w/dist/bar],
    each with the single line "foo". *)
Definition fs_search : fsnode :=
  FDir [(lit "w",
         FDir [(lit "a.txt", FFile true (lit "foo" ++ [NL]));
               (lit "dist",
                FDir [(lit "foo", FFile true (lit "foo" ++ [NL]));
                      (lit "bar", FFile true (lit "foo" ++ [NL]))])])].

(** [DirSource("/w")] *)
Definition dir_search : DirSource.t :=
  DirSource.init (lit "/") fs_search (lit "/w") [].

(** [PackConfig(include_globs=["**/*.js"], write_index=True)]: no exclude
    pattern of its own. *)
Definition cfg_include_js : PackConfig := {|
  input_dir := lit "."; output_file := lit "corpus-out.txt";
  include_globs := Some [lit "**/*.js"]; exclude_globs := None;
  verbose := false; compress := false; max_compress := false;
  gzip_out := false; base64_out := false;
  write_index := true; index_only := false;
  index_style := lit "flat"; index_output := None;
  index_include := None; index_depth := None |}.

(** The file [node_modules/mod.js] of [tree_sample], as the walk meets
    it. *)
Definition mod_js : walked :=
  {| w_rel := lit "node_modules/mod.js"; w_readable := true;
     w_data := lit "npm" |}.

(** The file [build/bar.txt] of [tree_build]. *)
Definition bar_txt : walked :=
  {| w_rel := lit "build/bar.txt"; w_readable := true; w_data := lit "x" |}.

(** * Properties *)

(** ** Strings and lists *)

Lemma list_eqb_eq {A} (eqb : A -> A -> bool) :
  (forall x y, eqb x y = true <-> x = y) ->
  forall a b, list_eqb eqb a b = true <-> a = b.
Proof.
  intros Heq. induction a as [|x a IH]; intros [|y b]; simpl; split;
    try congruence; try done.
  - intros H. apply andb_true_iff in H as [H1 H2].
    apply Heq in H1. apply IH in H2. congruence.
  - intros H. injection H as -> ->. apply andb_true_iff.
    split; [by apply Heq | by apply IH].
Qed.

Lemma str_eqb_eq (a b : str) : str_eqb a b = true <-> a = b.
Proof. apply list_eqb_eq. intros. apply Z.eqb_eq. Qed.

Lemma str_eqb_refl (a : str) : str_eqb a a = true.
Proof. by apply str_eqb_eq. Qed.

Lemma str_eqb_neq (a b : str) : str_eqb a b = false <-> a <> b.
Proof.
  split.
  - intros H E. apply str_eqb_eq in E. congruence.
  - intros H. destruct (str_eqb a b) eqn:E; [|done].
    apply str_eqb_eq in E. done.
Qed.

Lemma list_has_In (k : str) l : list_has k l = true <-> In k l.
Proof.
  unfold list_has. rewrite existsb_exists. split.
  - intros (x & Hx & E). apply str_eqb_eq in E. by subst.
  - intros H. exists k. split; [done | apply str_eqb_refl].
Qed.

(** ** Configuration defaults *)

Lemma apply_defaults_ok (cfg : PackConfig) :
  (base64_out cfg = true -> gzip_out cfg = true) ->
  exists cfg', apply_defaults cfg = Ok cfg' /\
    index_style cfg' =
      (if list_has (index_style cfg) valid_styles
       then index_style cfg else lit "flat").
Proof.
  intros H. unfold apply_defaults.
  destruct (base64_out cfg) eqn:Hb; [rewrite H by done|]; simpl;
    eexists; split; reflexivity.
Qed.

(** Whatever the style, defaulting fails exactly when base64 is asked for
    without gzip. *)
Lemma apply_defaults_raises (cfg : PackConfig) :
  base64_out cfg = true -> gzip_out cfg = false ->
  apply_defaults cfg = Raise (ValueError (lit "--base64 requires --gzip")).
Proof. intros H1 H2. unfold apply_defaults. by rewrite H1, H2. Qed.

(** C10, as stated, fails: a configuration with an unknown style that also
    asks for base64 without gzip makes [apply_defaults] raise before the
    style is looked at. *)
Lemma apply_defaults_bad_style_raises :
  ~ In (index_style cfg_bad_style_b64) valid_styles /\
  apply_defaults cfg_bad_style_b64
  = Raise (ValueError (lit "--base64 requires --gzip")).
Proof.
  split; [|reflexivity].
  intros H. apply list_has_In in H. vm_compute in H. discriminate.
Qed.

(** C10, amended: for every configuration that does not ask for base64
    without gzip and whose [index_style] is outside flat/tree/json,
    [apply_defaults] succeeds and the style becomes "flat", so that one of
    the three styles is active afterwards. *)
Theorem apply_defaults_bad_style (cfg : PackConfig) :
  (base64_out cfg = true -> gzip_out cfg = true) ->
  ~ In (index_style cfg) valid_styles ->
  exists cfg', apply_defaults cfg = Ok cfg' /\
    index_style cfg' = lit "flat" /\ In (index_style cfg') valid_styles.
Proof.
  intros Hb Hs. destruct (apply_defaults_ok cfg Hb) as (cfg' & E & St).
  exists cfg'. split; [done|].
  destruct (list_has (index_style cfg) valid_styles) eqn:Hin.
  - apply list_has_In in Hin. done.
  - rewrite St. split; [done|]. simpl. auto.
Qed.

Lemma apply_defaults_bad_style_witness :
  (base64_out cfg_bad_style = true -> gzip_out cfg_bad_style = true) /\
  ~ In (index_style cfg_bad_style) valid_styles /\
  exists cfg', apply_defaults cfg_bad_style = Ok cfg' /\
    index_style cfg' = lit "flat" /\ In (index_style cfg') valid_styles.
Proof.
  assert (H1 : base64_out cfg_bad_style = true -> gzip_out cfg_bad_style = true)
    by (simpl; discriminate).
  assert (H2 : ~ In (index_style cfg_bad_style) valid_styles).
  { intros H. apply list_has_In in H. vm_compute in H. discriminate. }
  split; [exact H1|]. split; [exact H2|].
  exact (apply_defaults_bad_style cfg_bad_style H1 H2).
Defined.

(** After defaulting, the style is always one of the three. *)
Lemma apply_defaults_style_valid (cfg cfg' : PackConfig) :
  apply_defaults cfg = Ok cfg' -> In (index_style cfg') valid_styles.
Proof.
  unfold apply_defaults.
  pose proof (list_has_In (index_style cfg) valid_styles) as HI.
  unfold list_has in HI.
  destruct (base64_out cfg && negb (gzip_out cfg)); [discriminate|].
  destruct (existsb (str_eqb (index_style cfg)) valid_styles);
    intros [= <-]; cbn [index_style].
  - by apply HI.
  - simpl. auto.
Qed.

(** ** The packing loop *)

Section PackLoop.
Context {U : Unicode}.

Lemma pack_step_passes cfg st f :
  passes cfg f = true ->
  pack_step cfg st f =
  {| buf := if index_only cfg then buf st else buf st ++ block_of cfg f;
     processed := processed st ++ [w_rel f];
     skipped := skipped st;
     index_files := if indexing cfg then index_files st ++ [entry_of f]
                    else index_files st |}.
Proof.
  unfold passes, pack_step. intros H.
  apply andb_true_iff in H as [H1 H2]. apply negb_true_iff in H1.
  rewrite H1, H2. reflexivity.
Qed.

Lemma pack_step_skips cfg st f :
  passes cfg f = false ->
  pack_step cfg st f =
  {| buf := buf st; processed := processed st;
     skipped := skipped st ++ [w_rel f]; index_files := index_files st |}.
Proof.
  unfold passes, pack_step. intros H.
  destruct (_should_exclude _ _ || negb (_should_include _ _)); [done|].
  simpl in H. by rewrite H.
Qed.

(** The loop, from any starting state: each accumulator grows by what the
    processed (or the skipped) files contribute, in the order of the
    walk. *)
Lemma pack_fold cfg (l : list walked) st :
  let st' := fold_left (pack_step cfg) l st in
  processed st' = processed st ++ map w_rel (List.filter (passes cfg) l) /\
  skipped st' =
    skipped st ++ map w_rel (List.filter (fun f => negb (passes cfg f)) l) /\
  buf st' =
    (if index_only cfg then buf st
     else buf st ++ concat (map (block_of cfg) (List.filter (passes cfg) l))) /\
  index_files st' =
    (if indexing cfg
     then index_files st ++ map entry_of (List.filter (passes cfg) l)
     else index_files st).
Proof.
  revert st. induction l as [|f l IH]; intros st; cbn zeta.
  - simpl. rewrite !app_nil_r. by destruct (index_only cfg), (indexing cfg).
  - cbn [fold_left List.filter]. specialize (IH (pack_step cfg st f)).
    cbn zeta in IH. destruct IH as (Hp & Hs & Hb & Hi).
    rewrite Hp, Hs, Hb, Hi. clear Hp Hs Hb Hi.
    destruct (passes cfg f) eqn:E.
    + rewrite (pack_step_passes _ _ _ E). cbn [negb map concat processed skipped buf index_files].
      destruct (index_only cfg), (indexing cfg); rewrite <- ?app_assoc; done.
    + rewrite (pack_step_skips _ _ _ E). cbn [negb map processed skipped buf index_files].
      destruct (index_only cfg), (indexing cfg); rewrite <- ?app_assoc; done.
Qed.

(** The locals at the end of the loop, in terms of the files the walk
    meets. *)
Lemma pack_loop_spec cfg tree :
  let st := pack_loop cfg tree in
  let seen := walk (the_list (exclude_globs cfg)) [] tree in
  processed st = map w_rel (kept cfg tree) /\
  skipped st = map w_rel (List.filter (fun f => negb (passes cfg f)) seen) /\
  buf st =
    (if index_only cfg then [] else concat (map (block_of cfg) (kept cfg tree))) /\
  index_files st =
    (if indexing cfg then map entry_of (kept cfg tree) else []).
Proof.
  cbn zeta. unfold pack_loop, kept.
  pose proof (pack_fold cfg (walk (the_list (exclude_globs cfg)) [] tree) init_state) as H.
  cbn zeta in H. simpl in H. exact H.
Qed.

End PackLoop.

(** ** The envelope *)

Ltac zcases :=
  repeat match goal with
    | |- context [?a <? ?b] => destruct (Z.ltb_spec a b)
    | |- context [?a <=? ?b] => destruct (Z.leb_spec a b)
    | |- context [?a =? ?b] => destruct (Z.eqb_spec a b)
    | H : context [?a <? ?b] |- _ => destruct (Z.ltb_spec a b)
    | H : context [?a <=? ?b] |- _ => destruct (Z.leb_spec a b)
    | H : context [?a =? ?b] |- _ => destruct (Z.eqb_spec a b)
    end.

Lemma b64_index_char (i : Z) :
  0 <= i < 64 -> b64_index (b64_char i) = Some i.
Proof.
  intros H. unfold b64_index, b64_char.
  zcases; simpl; try (f_equal; lia); try lia.
Qed.

Lemma b64_char_not_pad (i : Z) : 0 <= i < 64 -> (b64_char i =? PAD) = false.
Proof.
  intros H. unfold b64_char, PAD. zcases; try lia; reflexivity.
Qed.

Lemma b64_round_trip_upto (n : nat) :
  forall b : bytes, (length b <= n)%nat -> Forall is_byte b ->
  b64decode (b64encode b) = Some b.
Proof.
  unfold is_byte.
  induction n as [|n IH]; intros b Hlen Hb.
  { destruct b; [reflexivity | simpl in Hlen; lia]. }
  destruct b as [|x [|y [|z r]]]; [reflexivity | | |].
  - apply Forall_cons_iff in Hb as [Hx _].
    cbn [b64encode b64decode].
    rewrite !b64_index_char by (Z.div_mod_to_equations; lia).
    rewrite Z.eqb_refl. cbn [andb]. f_equal. f_equal.
    Z.div_mod_to_equations; lia.
  - apply Forall_cons_iff in Hb as [Hx Hb].
    apply Forall_cons_iff in Hb as [Hy _].
    cbn [b64encode b64decode].
    rewrite !b64_index_char by (Z.div_mod_to_equations; lia).
    rewrite (b64_char_not_pad (y mod 16 * 4)) by (Z.div_mod_to_equations; lia).
    rewrite Z.eqb_refl. cbn [andb].
    f_equal. f_equal; [|f_equal]; Z.div_mod_to_equations; lia.
  - apply Forall_cons_iff in Hb as [Hx Hb].
    apply Forall_cons_iff in Hb as [Hy Hb].
    apply Forall_cons_iff in Hb as [Hz Hr].
    cbn [b64encode b64decode].
    rewrite !b64_index_char by (Z.div_mod_to_equations; lia).
    rewrite (b64_char_not_pad (y mod 16 * 4 + z / 64))
      by (Z.div_mod_to_equations; lia).
    rewrite (b64_char_not_pad (z mod 64)) by (Z.div_mod_to_equations; lia).
    cbn [andb].
    rewrite (IH r) by (simpl in Hlen; lia || done).
    f_equal. f_equal; [|f_equal; [|f_equal]]; Z.div_mod_to_equations; lia.
Qed.

(** Decoding what [b64encode] wrote gives the bytes back. *)
Lemma b64decode_b64encode (b : bytes) :
  Forall is_byte b -> b64decode (b64encode b) = Some b.
Proof. apply (b64_round_trip_upto (length b)). lia. Qed.

Lemma of_le32_le32 (n : Z) : of_le32 (le32 n) = Some (n mod 4294967296).
Proof.
  unfold of_le32, le32. f_equal. Z.div_mod_to_equations. lia.
Qed.

Lemma le32_bytes (n : Z) : Forall is_byte (le32 n).
Proof.
  unfold le32, is_byte. repeat constructor; Z.div_mod_to_equations; lia.
Qed.

Section GzipFacts.
Context {D : Deflate}.

(** Unpacking what [gzip_write] wrote gives the data back, whatever the
    time stamped in the header. *)
Lemma gunzip_gzip_write (now : Z) (raw : bytes) :
  gunzip (gzip_write now raw) = Some raw.
Proof.
  unfold gzip_write.
  set (trailer := le32 (crc32 raw) ++ le32 (Z.of_nat (length raw))).
  unfold gunzip, le32. cbn [app].
  rewrite inflate_deflate. subst trailer.
  change (firstn 4 (le32 (crc32 raw) ++ le32 (Z.of_nat (length raw))))
    with (le32 (crc32 raw)).
  change (skipn 4 (le32 (crc32 raw) ++ le32 (Z.of_nat (length raw))))
    with (le32 (Z.of_nat (length raw))).
  rewrite !of_le32_le32, !Z.eqb_refl. reflexivity.
Qed.

Lemma gzip_write_bytes (now : Z) (raw : bytes) :
  Forall is_byte raw -> Forall is_byte (gzip_write now raw).
Proof.
  intros H. unfold gzip_write.
  repeat (apply Forall_app; split);
    auto using le32_bytes, deflate_bytes.
  unfold is_byte. repeat constructor; lia.
  unfold is_byte. repeat constructor; lia.
Qed.

(** The two stages undone in the opposite order. *)
Lemma unwrap_envelope (now : Z) (raw : bytes) :
  Forall is_byte raw ->
  match b64decode (envelope true true now raw) with
  | Some gz => gunzip gz
  | None => None
  end = Some raw.
Proof.
  intros H. unfold envelope.
  rewrite b64decode_b64encode by (by apply gzip_write_bytes).
  apply gunzip_gzip_write.
Qed.

End GzipFacts.

(** ** What [pack_directory] writes *)

Lemma utf8_enc_cp_bytes (c : Z) :
  is_scalar c = true -> Forall is_byte (utf8_enc_cp c).
Proof.
  unfold is_scalar, utf8_enc_cp, is_byte. intros H.
  apply andb_true_iff in H as [H _]. apply andb_true_iff in H as [H1 H2].
  apply Z.leb_le in H1. apply Z.ltb_lt in H2.
  zcases; repeat constructor; Z.div_mod_to_equations; lia.
Qed.

Lemma utf8_encode_Ok (s : str) (b : bytes) :
  utf8_encode s = Ok b ->
  forallb is_scalar s = true /\ b = flat_map utf8_enc_cp s.
Proof.
  unfold utf8_encode. destruct (forallb is_scalar s); [|discriminate].
  intros [= <-]. done.
Qed.

Lemma utf8_encode_bytes (s : str) (b : bytes) :
  utf8_encode s = Ok b -> Forall is_byte b.
Proof.
  intros H. apply utf8_encode_Ok in H as [Hs ->].
  induction s as [|c s IH]; simpl; [constructor|].
  simpl in Hs. apply andb_true_iff in Hs as [Hc Hs].
  apply Forall_app. split; [by apply utf8_enc_cp_bytes | by apply IH].
Qed.

Section PackFacts.
Context {U : Unicode} {D : Deflate}.

(** The stages of a successful run. *)
Lemma pack_body_Ok cwd now tree cfg1 o :
  pack_body cwd now tree cfg1 = Ok o ->
  exists raw,
    cfg_after o = cfg1 /\
    run o = pack_loop cfg1 tree /\
    (if indexing cfg1
     then render_index cwd cfg1 (sort_index (index_files (run o)))
     else Ok []) = Ok (index_text o) /\
    utf8_encode (bundle_text cfg1 (index_text o) (buf (run o))) = Ok raw /\
    out_bytes o = envelope (gzip_out cfg1) (base64_out cfg1) now raw /\
    total_bytes (stats o) =
      sum_sizes (if indexing cfg1 then sort_index (index_files (run o))
                 else index_files (run o)) /\
    files_processed (stats o) = Z.of_nat (length (processed (run o))) /\
    files_skipped (stats o) = Z.of_nat (length (skipped (run o))) /\
    bundle_size (stats o) = Z.of_nat (length (out_bytes o)) /\
    compression_ratio (stats o) =
      (if total_bytes (stats o) >? 0
       then RatioRound2 (bundle_size (stats o)) (total_bytes (stats o))
       else RatioZero).
Proof.
  unfold pack_body. intros H.
  destruct (if indexing cfg1 then _ else _) as [it|] eqn:E2;
    cbn [bind] in H; [|discriminate H].
  destruct (match index_output cfg1 with Some _ => _ | None => _ end)
    as [iw|] eqn:E3; cbn [bind] in H; [|discriminate H].
  destruct (utf8_encode (bundle_text cfg1 it _)) as [raw|] eqn:E4;
    cbn [bind] in H; [|discriminate H].
  injection H as <-. cbn.
  exists raw. repeat split; try done.
  by destruct (indexing cfg1).
Qed.

Lemma pack_directory_Ok cwd now tree cfg o :
  pack_directory cwd now tree cfg = Ok o ->
  exists cfg1 raw,
    apply_defaults cfg = Ok cfg1 /\
    cfg_after o = cfg1 /\
    run o = pack_loop cfg1 tree /\
    (if indexing cfg1
     then render_index cwd cfg1 (sort_index (index_files (run o)))
     else Ok []) = Ok (index_text o) /\
    utf8_encode (bundle_text cfg1 (index_text o) (buf (run o))) = Ok raw /\
    out_bytes o = envelope (gzip_out cfg1) (base64_out cfg1) now raw /\
    total_bytes (stats o) =
      sum_sizes (if indexing cfg1 then sort_index (index_files (run o))
                 else index_files (run o)) /\
    files_processed (stats o) = Z.of_nat (length (processed (run o))) /\
    files_skipped (stats o) = Z.of_nat (length (skipped (run o))) /\
    bundle_size (stats o) = Z.of_nat (length (out_bytes o)) /\
    compression_ratio (stats o) =
      (if total_bytes (stats o) >? 0
       then RatioRound2 (bundle_size (stats o)) (total_bytes (stats o))
       else RatioZero).
Proof.
  unfold pack_directory. intros H.
  destruct (apply_defaults cfg) as [cfg1|] eqn:E1; [|discriminate].
  cbn [bind] in H. apply pack_body_Ok in H as (raw & H).
  exists cfg1, raw. split; [done | exact H].
Qed.

Lemma apply_defaults_envelope cfg cfg1 :
  apply_defaults cfg = Ok cfg1 ->
  apply_defaults (with_envelope false false cfg)
  = Ok (with_envelope false false cfg1).
Proof.
  unfold apply_defaults.
  destruct (base64_out cfg && negb (gzip_out cfg)); [discriminate|].
  intros [= <-]. reflexivity.
Qed.

Lemma apply_defaults_flags cfg cfg1 :
  apply_defaults cfg = Ok cfg1 ->
  gzip_out cfg1 = gzip_out cfg /\ base64_out cfg1 = base64_out cfg /\
  write_index cfg1 = write_index cfg /\ index_only cfg1 = index_only cfg /\
  index_output cfg1 = index_output cfg /\ compress cfg1 = compress cfg /\
  max_compress cfg1 = max_compress cfg.
Proof.
  unfold apply_defaults.
  destruct (base64_out cfg && negb (gzip_out cfg)); [discriminate|].
  intros [= <-]. repeat split.
Qed.

(** C5: with both envelope flags set, base64-decoding the written output
    and gunzipping the result gives exactly the bytes that the same run
    writes with both flags off, that is, the unwrapped bundle text. *)
Theorem envelope_round_trip cwd now tree cfg o :
  gzip_out cfg = true -> base64_out cfg = true ->
  pack_directory cwd now tree cfg = Ok o ->
  exists plain,
    pack_directory cwd now tree (with_envelope false false cfg) = Ok plain /\
    match b64decode (out_bytes o) with
    | Some gz => gunzip gz
    | None => None
    end = Some (out_bytes plain).
Proof.
  intros Hg Hb H.
  unfold pack_directory in *.
  destruct (apply_defaults cfg) as [cfg1|] eqn:E1; [|discriminate].
  rewrite (apply_defaults_envelope _ _ E1).
  destruct (apply_defaults_flags _ _ E1) as (Hg1 & Hb1 & _).
  rewrite Hg in Hg1. rewrite Hb in Hb1.
  cbn [bind] in *. unfold pack_body in *.
  change (indexing (with_envelope false false cfg1)) with (indexing cfg1).
  change (pack_loop (with_envelope false false cfg1) tree)
    with (pack_loop cfg1 tree).
  change (render_index cwd (with_envelope false false cfg1))
    with (render_index cwd cfg1).
  change (index_output (with_envelope false false cfg1))
    with (index_output cfg1).
  destruct (if indexing cfg1 then _ else _) as [it|] eqn:E2;
    cbn [bind] in *; [|discriminate H].
  destruct (match index_output cfg1 with Some _ => _ | None => _ end)
    as [iw|] eqn:E3; cbn [bind] in *; [|discriminate H].
  change (bundle_text (with_envelope false false cfg1))
    with (bundle_text cfg1).
  destruct (utf8_encode (bundle_text cfg1 it _)) as [raw|] eqn:E4;
    cbn [bind] in *; [|discriminate H].
  injection H as <-.
  eexists. split; [reflexivity|]. cbn [out_bytes gzip_out base64_out with_envelope].
  rewrite Hg1, Hb1.
  change (envelope false false now raw) with raw.
  apply unwrap_envelope. by apply utf8_encode_bytes in E4.
Qed.

End PackFacts.

Lemma envelope_round_trip_witness :
  gzip_out cfg_gz_b64 = true /\ base64_out cfg_gz_b64 = true /\
  exists o,
    @pack_directory ascii_tables toy_codec (lit "/w") 1700000000
      tree_sample cfg_gz_b64 = Ok o /\
    exists plain,
      @pack_directory ascii_tables toy_codec (lit "/w") 1700000000
        tree_sample (with_envelope false false cfg_gz_b64) = Ok plain /\
      match b64decode (out_bytes o) with
      | Some gz => @gunzip toy_codec gz
      | None => None
      end = Some (out_bytes plain).
Proof.
  split; [reflexivity|]. split; [reflexivity|].
  assert (H : { o | @pack_directory ascii_tables toy_codec (lit "/w") 1700000000
                      tree_sample cfg_gz_b64 = Ok o }).
  { eexists. vm_compute. reflexivity. }
  destruct H as [o H]. exists o. split; [exact H|].
  exact (@envelope_round_trip ascii_tables toy_codec (lit "/w") 1700000000
           tree_sample cfg_gz_b64 o eq_refl eq_refl H).
Defined.

(** ** Statistics *)

Lemma sum_sizes_from (files : list (str * dict)) (acc : Z) :
  fold_left (fun acc f => acc + meta_size (snd f)) files acc
  = acc + sum_sizes files.
Proof.
  unfold sum_sizes. revert acc.
  induction files as [|f files IH]; intros acc; cbn [fold_left]; [lia|].
  rewrite (IH (acc + _)), (IH (0 + _)). lia.
Qed.

Lemma sum_sizes_cons f (files : list (str * dict)) :
  sum_sizes (f :: files) = meta_size (snd f) + sum_sizes files.
Proof. unfold sum_sizes at 1. simpl. by rewrite sum_sizes_from. Qed.

Lemma sum_sizes_insert le f (files : list (str * dict)) :
  sum_sizes (insert_sorted le f files) = meta_size (snd f) + sum_sizes files.
Proof.
  induction files as [|g files IH]; cbn [insert_sorted].
  - by rewrite sum_sizes_cons.
  - destruct (le f g); rewrite !sum_sizes_cons; [done|]. rewrite IH. lia.
Qed.

(** Sorting the index entries does not change the total. *)
Lemma sum_sizes_sort (files : list (str * dict)) :
  sum_sizes (sort_index files) = sum_sizes files.
Proof.
  unfold sort_index, stable_sort.
  induction files as [|f files IH]; cbn [fold_right]; [done|].
  by rewrite sum_sizes_insert, sum_sizes_cons, IH.
Qed.

Lemma sum_sizes_entries (l : list walked) :
  sum_sizes (map entry_of l)
  = fold_right (fun f acc => Z.of_nat (length (w_data f)) + acc) 0 l.
Proof.
  induction l as [|f l IH]; [done|].
  cbn [map fold_right]. rewrite sum_sizes_cons, IH. reflexivity.
Qed.

Section Stats.
Context {U : Unicode} {D : Deflate}.

(** When an index is requested, [total_bytes] is the sum of the sizes on
    disk of the processed files. *)
Lemma total_bytes_with_index cwd now tree cfg o :
  pack_directory cwd now tree cfg = Ok o ->
  indexing cfg = true ->
  total_bytes (stats o)
  = fold_right (fun f acc => Z.of_nat (length (w_data f)) + acc) 0
      (kept (cfg_after o) tree).
Proof.
  intros H Hi.
  destruct (pack_directory_Ok _ _ _ _ _ H)
    as (cfg1 & raw & E1 & -> & Hrun & _ & _ & _ & Ht & _).
  destruct (apply_defaults_flags _ _ E1) as (_ & _ & Hw & Ho & Hx & _).
  assert (Hi1 : indexing cfg1 = true).
  { unfold indexing in *. by rewrite Hw, Ho, Hx. }
  rewrite Ht, Hi1, sum_sizes_sort, Hrun.
  destruct (pack_loop_spec cfg1 tree) as (_ & _ & _ & Hf).
  rewrite Hf, Hi1. apply sum_sizes_entries.
Qed.

(** When no index is requested, nothing is collected: [total_bytes] and the
    ratio are reported as zero, whatever was packed. *)
Lemma total_bytes_without_index cwd now tree cfg o :
  pack_directory cwd now tree cfg = Ok o ->
  indexing cfg = false ->
  total_bytes (stats o) = 0 /\ compression_ratio (stats o) = RatioZero.
Proof.
  intros H Hi.
  destruct (pack_directory_Ok _ _ _ _ _ H)
    as (cfg1 & raw & E1 & _ & Hrun & _ & _ & _ & Ht & _ & _ & _ & Hr).
  destruct (apply_defaults_flags _ _ E1) as (_ & _ & Hw & Ho & Hx & _).
  assert (Hi1 : indexing cfg1 = false).
  { unfold indexing in *. by rewrite Hw, Ho, Hx. }
  assert (Hz : total_bytes (stats o) = 0).
  { rewrite Ht, Hi1, Hrun.
    destruct (pack_loop_spec cfg1 tree) as (_ & _ & _ & Hf).
    by rewrite Hf, Hi1. }
  split; [done|]. by rewrite Hr, Hz.
Qed.

End Stats.

(** C8, on a run without index: packing the one-file directory with the
    default configuration processes the file, whose content is 4 bytes,
    and reports a total of 0 bytes and a ratio of 0. *)
Theorem stats_without_index :
  exists o,
    @pack_directory ascii_tables toy_codec (lit "/w") 0
      tree_one_file default_config = Ok o /\
    map (fun f => Z.of_nat (length (w_data f)))
      (@kept ascii_tables (cfg_after o) tree_one_file) = [4] /\
    files_processed (stats o) = 1 /\
    files_skipped (stats o) = 0 /\
    bundle_size (stats o) = 62 /\
    total_bytes (stats o) = 0 /\
    compression_ratio (stats o) = RatioZero.
Proof. eexists. vm_compute. repeat split; reflexivity. Qed.

(** The same run with an index: the total is the 4 bytes of the file. *)
Lemma stats_with_index :
  exists o,
    @pack_directory ascii_tables toy_codec (lit "/w") 0
      tree_one_file cfg_exclude_a = Ok o /\
    files_processed (stats o) = 1 /\
    total_bytes (stats o) = 4 /\
    compression_ratio (stats o) = RatioRound2 (bundle_size (stats o)) 4.
Proof. eexists. vm_compute. repeat split; reflexivity. Qed.

(** ** Exclusion and inclusion *)

Lemma fsnode_ind' (P : fsnode -> Prop) :
  (forall r d, P (FFile r d)) ->
  (forall es, Forall (fun e => P (snd e)) es -> P (FDir es)) ->
  forall n, P n.
Proof.
  intros Hf Hd.
  refine (fix go (n : fsnode) : P n :=
            match n with
            | FFile r d => Hf r d
            | FDir es =>
                Hd es ((fix go_list (es : list (str * fsnode))
                          : Forall (fun e => P (snd e)) es :=
                          match es with
                          | [] => @List.Forall_nil _ _
                          | (k, v) :: es' =>
                              @List.Forall_cons _ _ (k, v) es' (go v) (go_list es')
                          end) es)
            end).
Qed.

Lemma filter_none {A} (f : A -> bool) (l : list A) :
  (forall x, In x l -> f x = false) -> List.filter f l = [].
Proof.
  induction l as [|a l IH]; intros H; [done|].
  cbn [List.filter]. rewrite (H a) by (by left).
  apply IH. intros x Hx. apply H. by right.
Qed.

(** Two members of a list without repetition under [g] that agree under
    [g] are the same member. *)
Lemma NoDup_map_same {A B} (g : A -> B) (l : list A) (a b : A) :
  NoDup (map g l) -> In a l -> In b l -> g a = g b -> a = b.
Proof.
  induction l as [|x l IH]; intros Hd Ha Hb E; [done|].
  cbn [map] in Hd. apply NoDup_cons in Hd as [Hx Hd].
  rewrite list_elem_of_In in Hx.
  destruct Ha as [->|Ha], Hb as [->|Hb].
  - done.
  - exfalso. apply Hx. rewrite E. by apply in_map.
  - exfalso. apply Hx. rewrite <- E. by apply in_map.
  - by apply IH.
Qed.

(** The directories recorded above a file extend the ones the walk came
    through. *)
Lemma located_above (top : fsnode) :
  forall rel_root above x,
  In x (located rel_root above top) -> exists more, snd x = above ++ more.
Proof.
  induction top as [r d|es IH] using fsnode_ind'; intros rel_root above x Hin.
  - done.
  - cbn [located] in Hin. apply in_app_or in Hin as [Hin|Hin].
    + apply in_flat_map in Hin as (e & _ & Hin).
      destruct (snd e); [|done]. destruct Hin as [<-|[]].
      exists []. by rewrite app_nil_r.
    + induction IH as [|[d sub] es Hsub _ IHes]; [done|].
      apply in_app_or in Hin as [Hin|Hin]; [|by apply IHes].
      destruct sub as [|sub]; [done|].
      apply Hsub in Hin as (more & ->).
      exists (normpath (path_join rel_root d) :: more).
      by rewrite <- app_assoc.
Qed.

Section Exclude.
Context {U : Unicode} {D : Deflate}.

Lemma should_exclude_pattern (p pat : str) (exclude : list str) :
  In pat exclude -> _match_glob pat (glob_target pat p) = true ->
  _should_exclude p exclude = true.
Proof.
  intros Hin Hm. unfold _should_exclude. apply existsb_exists. eauto.
Qed.

Lemma apply_defaults_excludes cfg cfg1 :
  apply_defaults cfg = Ok cfg1 ->
  the_list (exclude_globs cfg1)
  = default_excludes ++ the_list (exclude_globs cfg).
Proof.
  unfold apply_defaults.
  destruct (base64_out cfg && negb (gzip_out cfg)); [discriminate|].
  intros [= <-]. cbn [exclude_globs].
  destruct (exclude_globs cfg) as [[|x l]|]; cbn [none_or_empty the_list];
    by rewrite ?app_nil_r.
Qed.

Lemma kept_not_excluded cfg tree f :
  In f (kept cfg tree) ->
  _should_exclude (w_rel f) (the_list (exclude_globs cfg)) = false.
Proof.
  unfold kept. intros H. apply filter_In in H as [_ H].
  unfold passes in H. apply andb_true_iff in H as [H _].
  apply negb_true_iff in H. by apply orb_false_iff in H as [H _].
Qed.

Lemma excluded_not_passes cfg f :
  _should_exclude (w_rel f) (the_list (exclude_globs cfg)) = true ->
  passes cfg f = false.
Proof. intros H. unfold passes. by rewrite H. Qed.

(** The walk yields exactly the files none of whose directories is
    excluded, in the order in which they lie in the tree: an excluded
    directory is left out with everything below it. *)
Lemma walk_located (exclude : list str) (top : fsnode) :
  forall rel_root above,
  forallb (fun d => negb (_should_exclude d exclude)) above = true ->
  walk exclude rel_root top
  = map fst
      (List.filter
         (fun x => forallb (fun d => negb (_should_exclude d exclude)) (snd x))
         (located rel_root above top)).
Proof.
  induction top as [r d|es IH] using fsnode_ind'; intros rel_root above Hab.
  - done.
  - cbn [walk located]. rewrite List.filter_app, map_app. f_equal.
    + clear IH. induction es as [|[n x] es IHes]; [done|].
      cbn [flat_map]. rewrite List.filter_app, map_app, <- IHes. f_equal.
      destruct x; cbn [snd fst List.filter map]; [|done].
      by rewrite Hab.
    + induction IH as [|[d sub] es Hsub _ IHes]; [done|].
      rewrite List.filter_app, map_app, <- IHes. f_equal.
      destruct sub as [|sub]; [done|].
      destruct (_should_exclude (normpath (path_join rel_root d)) exclude)
        eqn:Hx.
      * rewrite filter_none; [done|].
        intros x Hin. apply located_above in Hin as (more & ->).
        rewrite !forallb_app. cbn [forallb]. rewrite Hx. cbn [negb andb].
        by rewrite andb_false_r.
      * apply Hsub. rewrite forallb_app, Hab. cbn [forallb]. by rewrite Hx.
Qed.

(** With nothing excluded, the walk meets every file that [located]
    lists. *)
Lemma walk_no_exclude (top : fsnode) (rel_root : str) (above : list str) :
  walk [] rel_root top = map fst (located rel_root above top).
Proof.
  assert (Hall : forall l : list str,
            forallb (fun d => negb (_should_exclude d [])) l = true)
    by (induction l; done).
  rewrite (walk_located [] top rel_root above) by apply Hall.
  f_equal. induction (located rel_root above top) as [|x l IH]; [done|].
  cbn [List.filter]. by rewrite Hall, IH.
Qed.

(** C4, amended: let [f] be a file of the input directory, with [ds] the
    relative paths of the directories above it, whose relative path matches
    both an include pattern and an exclude pattern, the latter one of the
    default excludes or one of the configuration.  Then [f] is never
    processed: its path is not among the processed files nor among the
    index entries, and the body consists of the blocks of other files.  It
    is recorded as skipped when no directory above it is excluded.  When a
    directory above it is excluded, the walk prunes that directory and the
    file is not recorded as skipped either (relative paths being distinct,
    as in any directory). *)
Theorem exclude_beats_include cwd now tree cfg o (f : walked) (ds : list str)
    (ipat xpat : str) :
  pack_directory cwd now tree cfg = Ok o ->
  In (f, ds) (located [] [] tree) ->
  In ipat (the_list (include_globs cfg)) ->
  _match_glob ipat (glob_target ipat (w_rel f)) = true ->
  In xpat (default_excludes ++ the_list (exclude_globs cfg)) ->
  _match_glob xpat (glob_target xpat (w_rel f)) = true ->
  ~ In (w_rel f) (processed (run o)) /\
  ~ In (w_rel f) (map fst (index_files (run o))) /\
  (buf (run o) =
     (if index_only (cfg_after o) then []
      else concat (map (block_of (cfg_after o)) (kept (cfg_after o) tree))) /\
   forall f', In f' (kept (cfg_after o) tree) -> w_rel f' <> w_rel f) /\
  ((forall d, In d ds ->
      _should_exclude d (default_excludes ++ the_list (exclude_globs cfg))
      = false) ->
   In (w_rel f) (skipped (run o))) /\
  ((exists d, In d ds /\
      _should_exclude d (default_excludes ++ the_list (exclude_globs cfg))
      = true) ->
   NoDup (map (fun x => w_rel (fst x)) (located [] [] tree)) ->
   ~ In (w_rel f) (skipped (run o))).
Proof.
  intros H Hloc _ _ Hx Hm.
  destruct (pack_directory_Ok _ _ _ _ _ H)
    as (cfg1 & raw & E1 & -> & Hrun & _).
  pose proof (apply_defaults_excludes _ _ E1) as Heff.
  rewrite <- Heff in *.
  assert (Hex : _should_exclude (w_rel f) (the_list (exclude_globs cfg1)) = true)
    by (by apply (should_exclude_pattern _ xpat)).
  assert (Hk : forall f', In f' (kept cfg1 tree) -> w_rel f' <> w_rel f).
  { intros f' Hf E. apply kept_not_excluded in Hf. rewrite E in Hf.
    congruence. }
  destruct (pack_loop_spec cfg1 tree) as (Hp & Hs & Hb & Hi).
  rewrite Hrun, Hp, Hs, Hb, Hi.
  rewrite (walk_located _ tree [] []) by reflexivity.
  repeat split.
  - intros Hin. apply in_map_iff in Hin as (f' & Hf & Hin). by apply (Hk f').
  - intros Hin. destruct (indexing cfg1); [|done].
    rewrite map_map in Hin. apply in_map_iff in Hin as (f' & Hf & Hin).
    by apply (Hk f').
  - exact Hk.
  - intros Hds. apply in_map. apply filter_In. split.
    + apply in_map_iff. exists (f, ds). split; [done|].
      apply filter_In. split; [done|]. cbn [snd].
      apply forallb_forall. intros d Hd. by rewrite (Hds d Hd).
    + by rewrite excluded_not_passes.
  - intros (d & Hd & Hxd) Hnd Hin.
    apply in_map_iff in Hin as (f' & Hf & Hin).
    apply filter_In in Hin as [Hin _].
    apply in_map_iff in Hin as ([f'' ds'] & E & Hin). cbn [fst] in E. subst f''.
    apply filter_In in Hin as [Hin Hok]. cbn [snd] in Hok.
    assert (E : (f', ds') = (f, ds)).
    { by apply (NoDup_map_same (fun x => w_rel (fst x)) (located [] [] tree)). }
    injection E as -> ->.
    rewrite forallb_forall in Hok. specialize (Hok d Hd).
    by rewrite Hxd in Hok.
Qed.

End Exclude.

Lemma exclude_beats_include_witness :
  (exists o,
     @pack_directory ascii_tables toy_codec (lit "/w") 0 tree_sample
       cfg_include_js = Ok o /\
     In (mod_js, [lit "node_modules"]) (located [] [] tree_sample) /\
     In (lit "**/*.js") (the_list (include_globs cfg_include_js)) /\
     @_match_glob ascii_tables (lit "**/*.js")
       (glob_target (lit "**/*.js") (w_rel mod_js)) = true /\
     In (lit "**/node_modules/**")
        (default_excludes ++ the_list (exclude_globs cfg_include_js)) /\
     @_match_glob ascii_tables (lit "**/node_modules/**")
       (glob_target (lit "**/node_modules/**") (w_rel mod_js)) = true /\
     (forall d, In d [lit "node_modules"] ->
        @_should_exclude ascii_tables d
          (default_excludes ++ the_list (exclude_globs cfg_include_js))
        = false) /\
     ~ In (w_rel mod_js) (processed (run o)) /\
     ~ In (w_rel mod_js) (map fst (index_files (run o))) /\
     In (w_rel mod_js) (skipped (run o))) /\
  (exists o,
     @pack_directory ascii_tables toy_codec (lit "/w") 0 tree_build
       cfg_exclude_b = Ok o /\
     In (bar_txt, [lit "build"]) (located [] [] tree_build) /\
     In (lit "*.txt") (the_list (include_globs cfg_exclude_b)) /\
     @_match_glob ascii_tables (lit "*.txt")
       (glob_target (lit "*.txt") (w_rel bar_txt)) = true /\
     In (lit "b*")
        (default_excludes ++ the_list (exclude_globs cfg_exclude_b)) /\
     @_match_glob ascii_tables (lit "b*")
       (glob_target (lit "b*") (w_rel bar_txt)) = true /\
     (exists d, In d [lit "build"] /\
        @_should_exclude ascii_tables d
          (default_excludes ++ the_list (exclude_globs cfg_exclude_b))
        = true) /\
     NoDup (map (fun x => w_rel (fst x)) (located [] [] tree_build)) /\
     ~ In (w_rel bar_txt) (processed (run o)) /\
     ~ In (w_rel bar_txt) (map fst (index_files (run o))) /\
     ~ In (w_rel bar_txt) (skipped (run o))).
Proof.
  split.
  - assert (H : { o | @pack_directory ascii_tables toy_codec (lit "/w") 0
                        tree_sample cfg_include_js = Ok o }).
    { eexists. vm_compute. reflexivity. }
    destruct H as [o H]. exists o.
    assert (H0 : In (mod_js, [lit "node_modules"]) (located [] [] tree_sample))
      by (vm_compute; right; right; left; reflexivity).
    assert (H1 : In (lit "**/*.js") (the_list (include_globs cfg_include_js)))
      by (left; reflexivity).
    assert (H2 : @_match_glob ascii_tables (lit "**/*.js")
                   (glob_target (lit "**/*.js") (w_rel mod_js)) = true)
      by (vm_compute; reflexivity).
    assert (H3 : In (lit "**/node_modules/**")
                   (default_excludes ++ the_list (exclude_globs cfg_include_js)))
      by (apply in_or_app; left; unfold default_excludes; right; left;
          reflexivity).
    assert (H4 : @_match_glob ascii_tables (lit "**/node_modules/**")
                   (glob_target (lit "**/node_modules/**") (w_rel mod_js))
                 = true)
      by (vm_compute; reflexivity).
    assert (H5 : forall d, In d [lit "node_modules"] ->
                   @_should_exclude ascii_tables d
                     (default_excludes
                      ++ the_list (exclude_globs cfg_include_js)) = false)
      by (intros d [<-|[]]; vm_compute; reflexivity).
    destruct (@exclude_beats_include ascii_tables toy_codec (lit "/w") 0
                tree_sample cfg_include_js o mod_js [lit "node_modules"]
                (lit "**/*.js") (lit "**/node_modules/**") H H0 H1 H2 H3 H4)
      as (C1 & C2 & _ & C4 & _).
    split; [exact H|]. split; [exact H0|]. split; [exact H1|].
    split; [exact H2|]. split; [exact H3|]. split; [exact H4|].
    split; [exact H5|]. split; [exact C1|]. split; [exact C2|].
    exact (C4 H5).
  - assert (H : { o | @pack_directory ascii_tables toy_codec (lit "/w") 0
                        tree_build cfg_exclude_b = Ok o }).
    { eexists. vm_compute. reflexivity. }
    destruct H as [o H]. exists o.
    assert (H0 : In (bar_txt, [lit "build"]) (located [] [] tree_build))
      by (vm_compute; left; reflexivity).
    assert (H1 : In (lit "*.txt") (the_list (include_globs cfg_exclude_b)))
      by (left; reflexivity).
    assert (H2 : @_match_glob ascii_tables (lit "*.txt")
                   (glob_target (lit "*.txt") (w_rel bar_txt)) = true)
      by (vm_compute; reflexivity).
    assert (H3 : In (lit "b*")
                   (default_excludes ++ the_list (exclude_globs cfg_exclude_b)))
      by (apply in_or_app; right; left; reflexivity).
    assert (H4 : @_match_glob ascii_tables (lit "b*")
                   (glob_target (lit "b*") (w_rel bar_txt)) = true)
      by (vm_compute; reflexivity).
    assert (H5 : exists d, In d [lit "build"] /\
                   @_should_exclude ascii_tables d
                     (default_excludes
                      ++ the_list (exclude_globs cfg_exclude_b)) = true)
      by (exists (lit "build"); split; [by left | vm_compute; reflexivity]).
    assert (H6 : NoDup (map (fun x => w_rel (fst x))
                          (located [] [] tree_build)))
      by (apply (bool_decide_unpack _); vm_compute; exact I).
    destruct (@exclude_beats_include ascii_tables toy_codec (lit "/w") 0
                tree_build cfg_exclude_b o bar_txt [lit "build"]
                (lit "*.txt") (lit "b*") H H0 H1 H2 H3 H4)
      as (C1 & C2 & _ & _ & C5).
    split; [exact H|]. split; [exact H0|]. split; [exact H1|].
    split; [exact H2|]. split; [exact H3|]. split; [exact H4|].
    split; [exact H5|]. split; [exact H6|]. split; [exact C1|].
    split; [exact C2|]. exact (C5 H5 H6).
Defined.

(** C4, as stated, fails on one point: a file under a pruned directory
    matches both patterns and is recorded nowhere.  With [b*] excluded and
    [*.txt] included, [build/] is pruned, so [build/bar.txt] is neither
    processed nor counted as skipped. *)
Lemma pruned_file_not_recorded :
  exists o,
    @pack_directory ascii_tables toy_codec (lit "/w") 0 tree_build cfg_exclude_b
    = Ok o /\
    resolve [] tree_build (split_on SLASH (lit "build/bar.txt"))
    = Some (FFile true (lit "x")) /\
    @_match_glob ascii_tables (lit "*.txt")
      (glob_target (lit "*.txt") (lit "build/bar.txt")) = true /\
    @_match_glob ascii_tables (lit "b*")
      (glob_target (lit "b*") (lit "build/bar.txt")) = true /\
    processed (run o) = [] /\
    skipped (run o) = [] /\
    files_skipped (stats o) = 0.
Proof. eexists. vm_compute. repeat split; reflexivity. Qed.

(** ** Running the packer twice *)

Lemma fold_left_ext {A B} (f g : A -> B -> A) (l : list B) (a : A) :
  (forall a b, f a b = g a b) -> fold_left f l a = fold_left g l a.
Proof.
  intros H. revert a. induction l as [|b l IH]; intros a; simpl; [done|].
  by rewrite H, IH.
Qed.

Section Rerun.
Context {U : Unicode} {D : Deflate}.

Lemma walk_ext (e1 e2 : list str) (tree : fsnode) :
  same_exclusion e1 e2 ->
  forall rel_root, walk e1 rel_root tree = walk e2 rel_root tree.
Proof.
  intros He. induction tree as [r d|es IH] using fsnode_ind'; intros rel_root.
  - reflexivity.
  - cbn [walk]. f_equal.
    induction IH as [|[d sub] es Hsub _ IHes]; [reflexivity|].
    rewrite IHes. f_equal.
    destruct sub as [|sub]; [reflexivity|].
    rewrite He. destruct (_should_exclude _ e2); [reflexivity|].
    apply Hsub.
Qed.

Lemma pack_loop_excludes (x : option (list str)) (cfg : PackConfig) tree :
  same_exclusion (the_list x) (the_list (exclude_globs cfg)) ->
  pack_loop (with_excludes x cfg) tree = pack_loop cfg tree.
Proof.
  intros He. unfold pack_loop.
  cbn [exclude_globs with_excludes].
  rewrite (walk_ext _ _ tree He).
  apply fold_left_ext. intros st f. unfold pack_step.
  cbn [exclude_globs include_globs with_excludes]. by rewrite He.
Qed.

Lemma same_exclusion_defaults (e : list str) :
  same_exclusion (default_excludes ++ default_excludes ++ e)
                 (default_excludes ++ e).
Proof.
  intros p. unfold _should_exclude. rewrite !existsb_app.
  by destruct (existsb _ default_excludes).
Qed.

(** Applying the defaults to a configuration that already went through
    them only puts the default excludes in front once more. *)
Lemma apply_defaults_again cfg cfg1 :
  apply_defaults cfg = Ok cfg1 ->
  apply_defaults cfg1
  = Ok (with_excludes
          (Some (default_excludes ++ the_list (exclude_globs cfg1))) cfg1).
Proof.
  intros H.
  pose proof (apply_defaults_style_valid _ _ H) as Hs.
  apply list_has_In in Hs. unfold list_has in Hs.
  revert H Hs. unfold apply_defaults at 1.
  destruct (base64_out cfg && negb (gzip_out cfg)) eqn:Hb; [discriminate|].
  intros [= <-] Hs. unfold apply_defaults, with_excludes.
  cbn [base64_out gzip_out exclude_globs include_globs index_include
       index_style input_dir output_file verbose compress max_compress
       write_index index_only index_output index_depth] in *.
  rewrite Hb, Hs. f_equal. f_equal.
  - by destruct (include_globs cfg) as [[|]|].
  - by destruct (none_or_empty (exclude_globs cfg)).
  - by destruct (index_include cfg).
Qed.

Lemma pack_body_rerun cwd now1 now2 tree cfg1 o1 x :
  pack_body cwd now1 tree cfg1 = Ok o1 ->
  same_exclusion (the_list x) (the_list (exclude_globs cfg1)) ->
  gzip_out cfg1 = false \/ now1 = now2 ->
  exists o2, pack_body cwd now2 tree (with_excludes x cfg1) = Ok o2 /\
             written o2 = written o1 /\ stats o2 = stats o1.
Proof.
  intros H He Ht. unfold pack_body in *.
  rewrite (pack_loop_excludes x cfg1 tree He).
  change (indexing (with_excludes x cfg1)) with (indexing cfg1).
  change (render_index cwd (with_excludes x cfg1)) with (render_index cwd cfg1).
  change (index_output (with_excludes x cfg1)) with (index_output cfg1).
  change (bundle_text (with_excludes x cfg1)) with (bundle_text cfg1).
  cbn [gzip_out base64_out output_file with_excludes].
  destruct (if indexing cfg1 then _ else _) as [it|] eqn:E2;
    cbn [bind] in *; [|discriminate H].
  destruct (match index_output cfg1 with Some _ => _ | None => _ end)
    as [iw|] eqn:E3; cbn [bind] in *; [|discriminate H].
  destruct (utf8_encode (bundle_text cfg1 it _)) as [raw|] eqn:E4;
    cbn [bind] in *; [|discriminate H].
  injection H as <-. eexists. split; [reflexivity|].
  unfold written. cbn [out_bytes index_file stats].
  assert (Henv : envelope (gzip_out cfg1) (base64_out cfg1) now2 raw
                 = envelope (gzip_out cfg1) (base64_out cfg1) now1 raw).
  { destruct Ht as [Hg| ->]; [|reflexivity]. unfold envelope. by rewrite Hg. }
  by rewrite Henv.
Qed.

Lemma with_excludes_same cfg : with_excludes (exclude_globs cfg) cfg = cfg.
Proof. by destruct cfg. Qed.

(** C9, amended: packing the same directory again with the identical
    configuration (a fresh copy of it, or the very object the first run
    received and updated) succeeds and writes byte-identical files,
    provided gzip is off or both runs stamp the same time in the gzip
    header. *)
Theorem pack_twice_same_bytes cwd now1 now2 tree cfg cfg2 o1 :
  pack_directory cwd now1 tree cfg = Ok o1 ->
  cfg2 = cfg \/ cfg2 = cfg_after o1 ->
  gzip_out cfg = false \/ now1 = now2 ->
  exists o2, pack_directory cwd now2 tree cfg2 = Ok o2 /\
             out_bytes o2 = out_bytes o1 /\ index_file o2 = index_file o1.
Proof.
  intros H Hc Ht. unfold pack_directory in H.
  destruct (apply_defaults cfg) as [cfg1|] eqn:E1; [|discriminate].
  cbn [bind] in H.
  destruct (apply_defaults_flags _ _ E1) as (Hg & _).
  rewrite <- Hg in Ht.
  destruct Hc as [-> | ->].
  - destruct (pack_body_rerun cwd now1 now2 tree cfg1 o1 (exclude_globs cfg1) H)
      as (o2 & H2 & Hw & _); [done | done |].
    rewrite with_excludes_same in H2.
    exists o2. unfold pack_directory. rewrite E1. cbn [bind].
    split; [done|]. by injection Hw.
  - destruct (pack_body_Ok _ _ _ _ _ H) as (_ & -> & _).
    destruct (pack_body_rerun cwd now1 now2 tree cfg1 o1
                (Some (default_excludes ++ the_list (exclude_globs cfg1))) H)
      as (o2 & H2 & Hw & _); [|done|].
    { cbn [the_list]. rewrite (apply_defaults_excludes _ _ E1).
      apply same_exclusion_defaults. }
    exists o2. unfold pack_directory.
    rewrite (apply_defaults_again _ _ E1). cbn [bind].
    split; [done|]. by injection Hw.
Qed.

End Rerun.

(** ** UTF-8 *)

Lemma is_scalar_range (c : Z) :
  is_scalar c = true ->
  0 <= c < 1114112 /\ ~ (55296 <= c <= 57343).
Proof.
  unfold is_scalar. intros H.
  apply andb_true_iff in H as [H H3]. apply andb_true_iff in H as [H1 H2].
  apply Z.leb_le in H1. apply Z.ltb_lt in H2. apply negb_true_iff in H3.
  split; [lia|]. intros [H4 H5].
  apply Z.leb_le in H4. apply Z.leb_le in H5. by rewrite H4, H5 in H3.
Qed.

Lemma ltb_true (a b : Z) : a < b -> (a <? b) = true.
Proof. apply Z.ltb_lt. Qed.
Lemma ltb_false (a b : Z) : b <= a -> (a <? b) = false.
Proof. apply Z.ltb_ge. Qed.
Lemma leb_true (a b : Z) : a <= b -> (a <=? b) = true.
Proof. apply Z.leb_le. Qed.
Lemma leb_false (a b : Z) : b < a -> (a <=? b) = false.
Proof. apply Z.leb_gt. Qed.
Lemma eqb_false (a b : Z) : a <> b -> (a =? b) = false.
Proof. apply Z.eqb_neq. Qed.

Ltac split_cmp b :=
  match b with
  | context [?x <? ?y] => destruct (Z.ltb_spec x y)
  | context [?x <=? ?y] => destruct (Z.leb_spec x y)
  | context [?x =? ?y] => destruct (Z.eqb_spec x y)
  end.

(** Decide the test at the head of the goal by arithmetic. *)
Ltac head_if :=
  lazymatch goal with
  | |- (if ?b then _ else _) = _ =>
      split_cmp b; cbn [andb]; try (exfalso; lia)
  end.

Lemma split2 (c : Z) :
  exists q r, c / 64 = q /\ c mod 64 = r /\ c = 64 * q + r /\ 0 <= r < 64.
Proof.
  exists (c / 64), (c mod 64). repeat split; try done.
  - apply Z.div_mod. lia.
  - apply Z.mod_pos_bound. lia.
  - apply Z.mod_pos_bound. lia.
Qed.

Lemma split3 (c : Z) :
  exists a b d, c / 4096 = a /\ (c / 64) mod 64 = b /\ c mod 64 = d /\
    c = 4096 * a + 64 * b + d /\ 0 <= b < 64 /\ 0 <= d < 64.
Proof.
  exists (c / 4096), ((c / 64) mod 64), (c mod 64).
  repeat split; try done; Z.div_mod_to_equations; lia.
Qed.

Lemma split4 (c : Z) :
  exists a b e d, c / 262144 = a /\ (c / 4096) mod 64 = b /\
    (c / 64) mod 64 = e /\ c mod 64 = d /\
    c = 262144 * a + 4096 * b + 64 * e + d /\
    0 <= b < 64 /\ 0 <= e < 64 /\ 0 <= d < 64.
Proof.
  exists (c / 262144), ((c / 4096) mod 64), ((c / 64) mod 64), (c mod 64).
  repeat split; try done; Z.div_mod_to_equations; lia.
Qed.


(** Decoding resumes after a well-formed character with that character in
    front. *)
Lemma utf8_decode_enc_cp (c : Z) (rest : bytes) :
  is_scalar c = true ->
  utf8_decode_ignore (utf8_enc_cp c ++ rest) = c :: utf8_decode_ignore rest.
Proof.
  intros H. apply is_scalar_range in H as [Hr Hs].
  unfold utf8_enc_cp.
  destruct (Z.ltb_spec c 128) as [H1|H1].
  { cbn [app utf8_decode_ignore]. by rewrite ltb_true. }
  destruct (Z.ltb_spec c 2048) as [H2|H2].
  { destruct (split2 c) as (q & r & -> & -> & Hc & Hb).
    cbn [app]. remember (128 + r :: rest) as r0 eqn:E0.
    cbn [utf8_decode_ignore]. repeat head_if; subst r0; cbv beta iota;
      unfold is_cont; repeat head_if; f_equal; lia. }
  destruct (Z.ltb_spec c 65536) as [H3|H3].
  { destruct (split3 c) as (a & b & d & -> & -> & -> & Hc & Hb & Hd).
    cbn [app]. remember (128 + d :: rest) as r1 eqn:E1.
    remember (128 + b :: r1) as r0 eqn:E0.
    cbn [utf8_decode_ignore]. repeat head_if; subst r0; cbv beta iota;
      unfold second_ok, is_cont; repeat head_if; subst r1; cbv beta iota;
      repeat head_if; f_equal; lia. }
  destruct (split4 c) as (a & b & e & d & -> & -> & -> & -> & Hc & Hb & He & Hd).
  cbn [app]. remember (128 + d :: rest) as r2 eqn:E2.
  remember (128 + e :: r2) as r1 eqn:E1.
  remember (128 + b :: r1) as r0 eqn:E0.
  cbn [utf8_decode_ignore]. repeat head_if; subst r0; cbv beta iota;
    unfold second_ok, is_cont; repeat head_if; subst r1; cbv beta iota;
    repeat head_if; subst r2; cbv beta iota; repeat head_if; f_equal; lia.
Qed.

(** Permissive decoding is the inverse of encoding on well-formed text. *)
Lemma utf8_decode_encode (s : str) (rest : bytes) :
  forallb is_scalar s = true ->
  utf8_decode_ignore (flat_map utf8_enc_cp s ++ rest)
  = s ++ utf8_decode_ignore rest.
Proof.
  induction s as [|c s IH]; intros H; [done|].
  simpl in H. apply andb_true_iff in H as [Hc Hs].
  cbn [flat_map]. rewrite <- app_assoc, utf8_decode_enc_cp by done.
  cbn [app]. f_equal. by apply IH.
Qed.

Lemma utf8_decode_encode_all (s : str) :
  forallb is_scalar s = true ->
  utf8_decode_ignore (flat_map utf8_enc_cp s) = s.
Proof.
  intros H. rewrite <- (app_nil_r (flat_map _ _)).
  rewrite utf8_decode_encode by done. cbn. apply app_nil_r.
Qed.

(** A newline byte in the encoding is a newline character of the text. *)
Lemma utf8_enc_cp_newline (c : Z) :
  is_scalar c = true -> In NL (utf8_enc_cp c) -> c = NL.
Proof.
  intros H. apply is_scalar_range in H as [Hr _].
  unfold utf8_enc_cp, NL.
  destruct (Z.ltb_spec c 128); [|destruct (Z.ltb_spec c 2048);
    [|destruct (Z.ltb_spec c 65536)]].
  - cbn [In]. intros [Hin|[]]. done.
  - destruct (split2 c) as (q & r & -> & -> & Hc & Hb).
    cbn [In]. intros Hin.
    repeat (destruct Hin as [Hin|Hin]; [lia|]). done.
  - destruct (split3 c) as (a & b & d & -> & -> & -> & Hc & Hb & Hd).
    cbn [In]. intros Hin.
    repeat (destruct Hin as [Hin|Hin]; [lia|]). done.
  - destruct (split4 c) as (a & b & e & d & -> & -> & -> & -> & Hc & Hb & He & Hd).
    cbn [In]. intros Hin.
    repeat (destruct Hin as [Hin|Hin]; [lia|]). done.
Qed.

Lemma utf8_encode_no_newline (s : str) :
  forallb is_scalar s = true -> ~ In NL s ->
  ~ In NL (flat_map utf8_enc_cp s).
Proof.
  induction s as [|c s IH]; intros H Hn; [done|].
  simpl in H. apply andb_true_iff in H as [Hc Hs].
  cbn [flat_map]. intros Hin. apply in_app_or in Hin as [Hin|Hin].
  - apply Hn. left. by apply utf8_enc_cp_newline.
  - apply IH; [done | | done]. intros Hx. apply Hn. by right.
Qed.

Lemma utf8_encode_nonempty (s : str) :
  forallb is_scalar s = true -> s <> [] -> flat_map utf8_enc_cp s <> [].
Proof.
  destruct s as [|c s]; [done|]. intros _ _. cbn [flat_map].
  unfold utf8_enc_cp.
  by destruct (c <? 128), (c <? 2048), (c <? 65536).
Qed.

(** ** Lines and marker lines *)

Lemma prefix_b_app (p r : str) : startswith (p ++ r) p = true.
Proof.
  unfold startswith. induction p as [|c p IH]; simpl; [by destruct r|].
  by rewrite Z.eqb_refl.
Qed.

Lemma skipn_app_length {A} (p r : list A) : skipn (length p) (p ++ r) = r.
Proof. induction p; simpl; auto. Qed.

Lemma lines_keepends_nil_inv (s : str) : lines_keepends s = [] -> s = [].
Proof.
  destruct s as [|c s]; [done|]. simpl.
  destruct (c =? NL); [done|]. by destruct (lines_keepends s).
Qed.

(** A newline-free piece followed by a newline is one line. *)
Lemma lines_keepends_line (l rest : str) :
  ~ In NL l ->
  lines_keepends (l ++ NL :: rest) = (l ++ [NL]) :: lines_keepends rest.
Proof.
  induction l as [|c l IH]; intros Hn.
  - reflexivity.
  - cbn [app lines_keepends].
    destruct (Z.eqb_spec c NL) as [->|Hc]; [exfalso; apply Hn; by left|].
    rewrite IH; [done|]. intros H. apply Hn. by right.
Qed.

(** Text that ends with a newline splits into lines independently of what
    follows it. *)
Lemma lines_keepends_app (a b : str) :
  lines_keepends (a ++ NL :: b)
  = lines_keepends (a ++ [NL]) ++ lines_keepends b.
Proof.
  induction a as [|c a IH].
  - reflexivity.
  - cbn [app lines_keepends]. destruct (c =? NL).
    + by rewrite IH.
    + rewrite IH.
      destruct (lines_keepends (a ++ [NL])) as [|l ls] eqn:E; [|done].
      apply lines_keepends_nil_inv in E. by destruct a.
Qed.

Lemma lines_keepends_complete (a b : str) :
  complete_lines a ->
  lines_keepends (a ++ b) = lines_keepends a ++ lines_keepends b.
Proof.
  intros [-> | [a' ->]]; [done|].
  rewrite <- app_assoc. cbn [app]. apply lines_keepends_app.
Qed.

Lemma concat_lines_keepends (s : str) : concat (lines_keepends s) = s.
Proof.
  induction s as [|c s IH]; [done|]. cbn [lines_keepends].
  destruct (c =? NL); [simpl; by rewrite IH|].
  destruct (lines_keepends s) as [|l ls]; simpl in *; by rewrite <- IH.
Qed.

(** *** The marker patterns *)

(** The greedy group takes everything up to the closing dashes. *)
Lemma greedy_group_closing (g : bytes) :
  g <> [] -> ~ In NL g ->
  greedy_group (g ++ lit " ---" ++ [NL]) = Some g.
Proof.
  induction g as [|c g IH]; [done|]. intros _ Hn.
  cbn [app greedy_group].
  destruct (Z.eqb_spec c NL) as [->|Hc]; [exfalso; apply Hn; by left|].
  destruct g as [|d g].
  - reflexivity.
  - rewrite IH; [done | done |]. intros H. apply Hn. by right.
Qed.

Lemma START_RE_B_start_line (g : bytes) :
  g <> [] -> ~ In NL g -> START_RE_B (start_line g) = Some g.
Proof.
  intros Hg Hn. unfold START_RE_B, match_marker, start_line.
  rewrite prefix_b_app, skipn_app_length. by apply greedy_group_closing.
Qed.

Lemma END_RE_B_end_line (g : bytes) :
  g <> [] -> ~ In NL g -> END_RE_B (end_line g) = Some g.
Proof.
  intros Hg Hn. unfold END_RE_B, match_marker, end_line.
  rewrite prefix_b_app, skipn_app_length. by apply greedy_group_closing.
Qed.

Lemma START_RE_B_end_line (g : bytes) : START_RE_B (end_line g) = None.
Proof. reflexivity. Qed.

Lemma plain_newline : plain_line [NL].
Proof. split; reflexivity. Qed.

(** ** Scanning a bundle *)

Import BundleSource.

Lemma scan_step_plain (st : scan) (l : bytes) :
  plain_line l ->
  scan_step st l =
  {| offset := offset st + Z.of_nat (length l);
     current_path := current_path st;
     start_pos := start_pos st;
     index := index st |}.
Proof. intros [H1 H2]. unfold scan_step. by rewrite H1, H2. Qed.

Lemma scan_plain_lines (ls : list bytes) (st : scan) :
  Forall plain_line ls ->
  fold_left scan_step ls st =
  {| offset := offset st + Z.of_nat (length (concat ls));
     current_path := current_path st;
     start_pos := start_pos st;
     index := index st |}.
Proof.
  intros H. revert st. induction H as [|l ls Hl _ IH]; intros st.
  - simpl. destruct st. simpl. f_equal. lia.
  - cbn [fold_left concat]. rewrite IH, (scan_step_plain _ _ Hl). simpl.
    f_equal. rewrite length_app. lia.
Qed.

Lemma scan_step_start (st : scan) (l g : bytes) :
  START_RE_B l = Some g ->
  scan_step st l =
  {| offset := offset st + Z.of_nat (length l);
     current_path := Some (utf8_decode_ignore g);
     start_pos := Some (offset st + Z.of_nat (length l));
     index := index st |}.
Proof. intros H. unfold scan_step. by rewrite H. Qed.

(** An END line met while an entry is open closes that entry, whatever
    path the END line names. *)
Lemma scan_step_end_open (st : scan) (l g : bytes) (path : str) (start : Z) :
  START_RE_B l = None -> END_RE_B l = Some g ->
  current_path st = Some path -> start_pos st = Some start ->
  scan_step st l =
  {| offset := offset st + Z.of_nat (length l);
     current_path := None;
     start_pos := None;
     index := <[path := (start, offset st)]> (index st) |}.
Proof.
  intros H1 H2 H3 H4. unfold scan_step. by rewrite H1, H2, H3, H4.
Qed.

(** An END line met while no entry is open only moves the offset. *)
Lemma scan_step_end_closed (st : scan) (l : bytes) :
  START_RE_B l = None -> current_path st = None ->
  scan_step st l =
  {| offset := offset st + Z.of_nat (length l);
     current_path := None;
     start_pos := start_pos st;
     index := index st |}.
Proof.
  intros H1 H3. unfold scan_step. rewrite H1, H3.
  by destruct (END_RE_B l).
Qed.

Lemma start_line_no_newline (g : bytes) :
  ~ In NL g -> ~ In NL (START_PREFIX ++ g ++ lit " ---").
Proof.
  intros Hn H. apply in_app_or in H as [H|H].
  - vm_compute in H. intuition discriminate.
  - apply in_app_or in H as [H|H]; [done|].
    vm_compute in H. intuition discriminate.
Qed.

Lemma end_line_no_newline (g : bytes) :
  ~ In NL g -> ~ In NL (END_PREFIX ++ g ++ lit " ---").
Proof.
  intros Hn H. apply in_app_or in H as [H|H].
  - vm_compute in H. intuition discriminate.
  - apply in_app_or in H as [H|H]; [done|].
    vm_compute in H. intuition discriminate.
Qed.

(** The lines of a block, whatever follows it. *)
Lemma lines_keepends_block (g body q rest : bytes) :
  ~ In NL g -> ~ In NL q -> complete_lines body ->
  lines_keepends (block_bytes g body q ++ rest)
  = start_line g :: lines_keepends body ++ [end_line q; [NL]]
    ++ lines_keepends rest.
Proof.
  intros Hg Hq Hb. unfold block_bytes, start_line, end_line.
  assert (E : ((START_PREFIX ++ g ++ lit " ---" ++ [NL]) ++ body
               ++ (END_PREFIX ++ q ++ lit " ---" ++ [NL]) ++ [NL]) ++ rest
              = (START_PREFIX ++ g ++ lit " ---") ++ NL ::
                (body ++ (END_PREFIX ++ q ++ lit " ---") ++ NL :: NL :: rest)).
  { rewrite <- !app_assoc. cbn [app]. reflexivity. }
  rewrite E. clear E.
  rewrite lines_keepends_line by (by apply start_line_no_newline).
  rewrite lines_keepends_complete by done.
  rewrite lines_keepends_line by (by apply end_line_no_newline).
  rewrite <- !app_assoc. reflexivity.
Qed.

(** Scanning one block from any state: the entry opened by its START line
    is closed by its END line and recorded with the span of [body]; an
    entry left open before the block is forgotten. *)
Lemma scan_block (g body q : bytes) (ls : list bytes) (st : scan) :
  g <> [] -> ~ In NL g -> q <> [] -> ~ In NL q ->
  Forall plain_line (lines_keepends body) ->
  fold_left scan_step
    (start_line g :: lines_keepends body ++ [end_line q; [NL]] ++ ls) st
  = fold_left scan_step ls
      {| offset := offset st + Z.of_nat (length (block_bytes g body q));
         current_path := None;
         start_pos := None;
         index :=
           <[utf8_decode_ignore g :=
               (offset st + Z.of_nat (length (start_line g)),
                offset st + Z.of_nat (length (start_line g))
                + Z.of_nat (length body))]> (index st) |}.
Proof.
  intros Hg Hgn Hq Hqn Hb.
  cbn [fold_left]. rewrite (scan_step_start _ _ g)
    by (by apply START_RE_B_start_line).
  rewrite fold_left_app, (scan_plain_lines _ _ Hb), concat_lines_keepends.
  cbn [fold_left app offset current_path start_pos index].
  rewrite (scan_step_end_open _ (end_line q) q (utf8_decode_ignore g)
             (offset st + Z.of_nat (length (start_line g))));
    [|apply START_RE_B_end_line | by apply END_RE_B_end_line | done | done].
  rewrite (scan_step_plain _ [NL] plain_newline).
  cbn [offset current_path start_pos index].
  f_equal. f_equal. unfold block_bytes. rewrite !length_app. simpl length. lia.
Qed.

Import BundleSource.
(** *** A sequence of blocks *)

Lemma scan_blocks (entries : list (bytes * bytes)) :
  Forall wf_entry entries ->
  forall (rest : bytes) (st : scan),
  current_path st = None -> start_pos st = None ->
  fold_left scan_step (lines_keepends (blocks entries ++ rest)) st
  = fold_left scan_step (lines_keepends rest)
      {| offset := offset st + Z.of_nat (length (blocks entries));
         current_path := None;
         start_pos := None;
         index := record_spans (spans (offset st) entries) (index st) |}.
Proof.
  induction 1 as [|[g body] es (Hg & Hn & Hc & Hp) _ IH]; intros rest st H1 H2.
  - cbn. destruct st; simpl in *; subst. do 2 f_equal. lia.
  - unfold blocks. cbn [map concat fst snd]. fold (blocks es).
    rewrite <- app_assoc, lines_keepends_block by done.
    rewrite scan_block by done.
    rewrite IH by done.
    cbn [offset index spans record_spans fold_left fst snd].
    do 2 f_equal. rewrite length_app. lia.
Qed.

Lemma record_spans_frame (l : list (str * (Z * Z))) (m : gmap str (Z * Z)) k :
  ~ In k (map fst l) -> record_spans l m !! k = m !! k.
Proof.
  unfold record_spans. revert m.
  induction l as [|[k' v] l IH]; intros m Hk; [done|].
  cbn [fold_left fst snd]. rewrite IH.
  - apply lookup_insert_ne. intros ->. apply Hk. by left.
  - intros H. apply Hk. by right.
Qed.

Lemma record_spans_lookup (l : list (str * (Z * Z))) (m : gmap str (Z * Z)) k v :
  NoDup (map fst l) -> In (k, v) l -> record_spans l m !! k = Some v.
Proof.
  revert m. induction l as [|[k' v'] l IH]; intros m Hd Hin; [done|].
  cbn [map fst] in Hd. apply NoDup_cons in Hd as [Hk Hd].
  destruct Hin as [[= -> ->]|Hin].
  - change (record_spans ((k, v) :: l) m)
      with (record_spans l (<[k := v]> m)).
    rewrite record_spans_frame; [apply lookup_insert_eq|].
    by rewrite <- list_elem_of_In.
  - change (record_spans ((k', v') :: l) m)
      with (record_spans l (<[k' := v']> m)).
    by apply IH.
Qed.

Lemma spans_keys (o : Z) (entries : list (bytes * bytes)) :
  map fst (spans o entries)
  = map (fun e => utf8_decode_ignore (fst e)) entries.
Proof.
  revert o. induction entries as [|[g body] es IH]; intros o; [done|].
  cbn [spans map fst]. by rewrite IH.
Qed.

Lemma slice_middle (a b c : bytes) :
  slice (a ++ b ++ c) (Z.of_nat (length a))
    (Z.of_nat (length a) + Z.of_nat (length b)) = b.
Proof.
  unfold slice. rewrite Nat2Z.id, skipn_app_length.
  replace (Z.of_nat (length a) + Z.of_nat (length b) - Z.of_nat (length a))
    with (Z.of_nat (length b)) by lia.
  rewrite Nat2Z.id. induction b; simpl; [done | by f_equal].
Qed.

(** Each recorded span covers exactly the body of its block. *)
Lemma spans_slice (entries : list (bytes * bytes)) :
  forall (pre post g body : bytes),
  In (g, body) entries ->
  exists s e,
    In (utf8_decode_ignore g, (s, e)) (spans (Z.of_nat (length pre)) entries) /\
    slice (pre ++ blocks entries ++ post) s e = body.
Proof.
  induction entries as [|[g' body'] es IH]; intros pre post g body Hin; [done|].
  destruct Hin as [[= -> ->]|Hin].
  - eexists _, _. split; [left; reflexivity|].
    unfold blocks. cbn [map concat fst snd]. unfold block_bytes.
    rewrite <- Nat2Z.inj_add, <- length_app.
    replace (pre ++ ((start_line g ++ body ++ end_line g ++ [NL]) ++
                     concat (map (fun e => start_line e.1 ++ e.2 ++ end_line e.1 ++ [NL]) es)) ++ post)
      with ((pre ++ start_line g) ++ body ++
            (end_line g ++ [NL] ++
             concat (map (fun e => start_line e.1 ++ e.2 ++ end_line e.1 ++ [NL]) es) ++ post))
      by (by rewrite <- !app_assoc).
    apply slice_middle.
  - destruct (IH (pre ++ block_bytes g' body' g') post g body Hin)
      as (s & e & Hs & Hsl).
    exists s, e. split.
    + right. cbn [spans]. rewrite length_app, Nat2Z.inj_add in Hs. exact Hs.
    + rewrite <- Hsl. unfold blocks. cbn [map concat fst snd].
      by rewrite <- !app_assoc.
Qed.

(** The index that [BundleSource] builds for a bundle made of a prelude of
    plain lines followed by well-formed blocks. *)
Lemma init_index (pre : bytes) (entries : list (bytes * bytes)) :
  complete_lines pre -> Forall plain_line (lines_keepends pre) ->
  Forall wf_entry entries ->
  _index (init (pre ++ blocks entries))
  = record_spans (spans (Z.of_nat (length pre)) entries) ∅.
Proof.
  intros Hc Hp He. unfold init. cbn [_index].
  rewrite lines_keepends_complete, fold_left_app by done.
  rewrite (scan_plain_lines _ _ Hp), concat_lines_keepends.
  rewrite <- (app_nil_r (blocks entries)).
  rewrite scan_blocks by done. reflexivity.
Qed.

(** Reading back a file of such a bundle gives the decoded body of its
    block. *)
Lemma get_file_block (pre : bytes) (entries : list (bytes * bytes)) g body :
  complete_lines pre -> Forall plain_line (lines_keepends pre) ->
  Forall wf_entry entries ->
  NoDup (map (fun e => utf8_decode_ignore (fst e)) entries) ->
  In (g, body) entries ->
  get_file (init (pre ++ blocks entries)) (utf8_decode_ignore g) None None
  = Ok (utf8_decode_ignore body).
Proof.
  intros Hc Hp He Hd Hin. unfold get_file.
  rewrite init_index by done.
  destruct (spans_slice entries pre [] g body Hin) as (s & e & Hs & Hsl).
  rewrite (record_spans_lookup _ _ _ (s, e)); [| by rewrite spans_keys | done].
  cbn [bundle init select_lines]. rewrite app_nil_r in Hsl. by rewrite Hsl.
Qed.

Import BundleSource.
(** ** Reading back what was packed *)

Lemma forallb_concat_In {A} (f : A -> bool) (ls : list (list A)) (l : list A) :
  forallb f (concat ls) = true -> In l ls -> forallb f l = true.
Proof.
  induction ls as [|l' ls IH]; [done|]. cbn [concat].
  rewrite forallb_app. intros H Hin. apply andb_true_iff in H as [H1 H2].
  destruct Hin as [->|Hin]; [done | by apply IH].
Qed.

Lemma flat_map_concat {A B} (f : A -> list B) (ls : list (list A)) :
  flat_map f (concat ls) = concat (map (flat_map f) ls).
Proof.
  induction ls as [|l ls IH]; [done|]. cbn [concat map].
  by rewrite flat_map_app, IH.
Qed.

Section RoundTrip.
Context {U : Unicode} {D : Deflate}.

Lemma encode_file_block (cfg : PackConfig) (f : walked) :
  compress cfg = false ->
  flat_map utf8_enc_cp (block_of cfg f)
  = block_bytes (fst (file_entry_bytes f)) (snd (file_entry_bytes f))
      (fst (file_entry_bytes f)).
Proof.
  intros Hc. unfold block_of, file_block, block_bytes, file_entry_bytes,
    start_line, end_line. rewrite Hc. cbn [fst snd].
  rewrite !flat_map_app.
  change (flat_map utf8_enc_cp (lit "--- START OF FILE: ")) with START_PREFIX.
  change (flat_map utf8_enc_cp (lit "--- END OF FILE: ")) with END_PREFIX.
  change (flat_map utf8_enc_cp (lit " ---")) with (lit " ---").
  change (flat_map utf8_enc_cp [NL]) with [NL].
  change (flat_map utf8_enc_cp [NL; NL]) with [NL; NL].
  rewrite <- !app_assoc. reflexivity.
Qed.

Lemma scalar_block (cfg : PackConfig) (f : walked) :
  compress cfg = false ->
  forallb is_scalar (block_of cfg f) = true ->
  forallb is_scalar (w_rel f) = true /\
  forallb is_scalar (read_text (w_data f)) = true.
Proof.
  intros Hc. unfold block_of, file_block. rewrite Hc.
  rewrite !forallb_app. intros H.
  repeat (apply andb_true_iff in H as [? H] ||
          match goal with
          | H' : _ && _ = true |- _ => apply andb_true_iff in H' as [? ?]
          end).
  done.
Qed.

Lemma complete_index_prelude (cfg : PackConfig) (it : str) :
  complete_lines (flat_map utf8_enc_cp (index_prelude cfg it)).
Proof.
  unfold index_prelude. destruct (_ && _); [|by left].
  right. rewrite !flat_map_app.
  change (flat_map utf8_enc_cp [NL; NL]) with ([NL] ++ [NL]).
  eexists. rewrite !app_assoc. reflexivity.
Qed.

(** The written bundle, without transform and envelope, is the encoded
    index prelude followed by one block per processed file. *)
Lemma out_bytes_blocks cwd now tree cfg o :
  pack_directory cwd now tree cfg = Ok o ->
  compress cfg = false -> gzip_out cfg = false -> base64_out cfg = false ->
  index_only cfg = false ->
  out_bytes o
  = flat_map utf8_enc_cp (index_prelude (cfg_after o) (index_text o))
    ++ blocks (map file_entry_bytes (kept (cfg_after o) tree)) /\
  Forall (fun f => forallb is_scalar (w_rel f) = true /\
                   forallb is_scalar (read_text (w_data f)) = true)
    (kept (cfg_after o) tree).
Proof.
  intros H Hc Hg Hb Hi.
  destruct (pack_directory_Ok _ _ _ _ _ H)
    as (cfg1 & raw & E1 & -> & Hrun & _ & Henc & Hout & _).
  destruct (apply_defaults_flags _ _ E1)
    as (Hg1 & Hb1 & _ & Hi1 & _ & Hc1 & _).
  rewrite Hg in Hg1. rewrite Hb in Hb1. rewrite Hi in Hi1. rewrite Hc in Hc1.
  destruct (pack_loop_spec cfg1 tree) as (_ & _ & Hbuf & _).
  rewrite Hrun, Hbuf, Hi1 in Henc. unfold bundle_text in Henc.
  rewrite Hi1 in Henc. apply utf8_encode_Ok in Henc as [Hs ->].
  rewrite Hout, Hg1, Hb1. unfold envelope.
  rewrite forallb_app in Hs. apply andb_true_iff in Hs as [_ Hs].
  split.
  - rewrite flat_map_app, flat_map_concat. f_equal.
    unfold blocks. rewrite !map_map. f_equal.
    apply List.map_ext. intros f. by apply encode_file_block.
  - apply List.Forall_forall. intros f Hf.
    apply (scalar_block cfg1); [done|].
    apply (forallb_concat_In _ _ _ Hs). by apply in_map.
Qed.

(** C1, amended: for a bundle written without transform, gzip, base64 or
    index-only mode, [get_file] on a processed file's path returns the
    file's decoded content followed by one newline, the one the writer puts
    in front of the END marker.  This holds when the processed paths are
    distinct, non-empty and free of newlines, and no line of the index
    prelude or of a file's content reads as a marker. *)
Theorem bundle_round_trip cwd now tree cfg o f :
  pack_directory cwd now tree cfg = Ok o ->
  compress cfg = false -> gzip_out cfg = false -> base64_out cfg = false ->
  index_only cfg = false ->
  Forall plain_line
    (lines_keepends
       (flat_map utf8_enc_cp (index_prelude (cfg_after o) (index_text o)))) ->
  Forall clean_file (kept (cfg_after o) tree) ->
  NoDup (processed (run o)) ->
  In f (kept (cfg_after o) tree) ->
  get_file (init (out_bytes o)) (w_rel f) None None
  = Ok (read_text (w_data f) ++ [NL]).
Proof.
  intros H Hc Hg Hb Hi Hpre Hclean Hdup Hin.
  destruct (out_bytes_blocks _ _ _ _ _ H Hc Hg Hb Hi) as [-> Hsc].
  destruct (pack_directory_Ok _ _ _ _ _ H) as (cfg1 & _ & _ & <- & Hrun & _).
  destruct (pack_loop_spec (cfg_after o) tree) as (Hp & _).
  rewrite Hrun, Hp in Hdup. clear Hrun Hp.
  rewrite List.Forall_forall in Hsc, Hclean.
  destruct (Hsc f Hin) as [Hsf Hsd].
  assert (Hkey : forall f', In f' (kept (cfg_after o) tree) ->
            utf8_decode_ignore (fst (file_entry_bytes f')) = w_rel f').
  { intros f' Hf'. destruct (Hsc f' Hf') as [Hs' _].
    by apply utf8_decode_encode_all. }
  rewrite <- (Hkey f Hin).
  rewrite (get_file_block _ _ _ (snd (file_entry_bytes f))).
  - cbn [snd file_entry_bytes]. by rewrite utf8_decode_encode.
  - apply complete_index_prelude.
  - done.
  - apply List.Forall_forall. intros e He.
    apply in_map_iff in He as (f' & <- & Hf').
    destruct (Hsc f' Hf') as [Hs' _].
    destruct (Hclean f' Hf') as (Hne & Hnl & Hpl).
    repeat split; cbn [fst snd file_entry_bytes].
    + by apply utf8_encode_nonempty.
    + by apply utf8_encode_no_newline.
    + right. by eexists.
    + done.
  - rewrite map_map.
    rewrite (List.map_ext_in _ w_rel); [done|]. intros f' Hf'. by apply Hkey.
  - apply in_map_iff. exists f. split; [|done]. by destruct (file_entry_bytes f).
Qed.

End RoundTrip.

Import BundleSource.
(** Close [~ In x l] on a concrete list. *)
Ltac not_in_list :=
  vm_compute;
  let Hx := fresh in
  intros Hx; repeat (destruct Hx as [Hx|Hx]; [discriminate Hx|]); exact Hx.

Lemma bundle_round_trip_witness :
  exists o,
    @pack_directory ascii_tables toy_codec (lit "/w") 0 tree_sample cfg_sample
    = Ok o /\
    compress cfg_sample = false /\ gzip_out cfg_sample = false /\
    base64_out cfg_sample = false /\ index_only cfg_sample = false /\
    Forall plain_line
      (lines_keepends
         (flat_map utf8_enc_cp (index_prelude (cfg_after o) (index_text o)))) /\
    Forall clean_file (@kept ascii_tables (cfg_after o) tree_sample) /\
    NoDup (processed (run o)) /\
    In keep_txt (@kept ascii_tables (cfg_after o) tree_sample) /\
    get_file (init (out_bytes o)) (w_rel keep_txt) None None
    = Ok (read_text (w_data keep_txt) ++ [NL]).
Proof.
  eexists.
  match goal with
  | |- ?A /\ _ => assert (H : A) by (vm_compute; reflexivity)
  end.
  assert (H1 : compress cfg_sample = false) by reflexivity.
  assert (H2 : gzip_out cfg_sample = false) by reflexivity.
  assert (H3 : base64_out cfg_sample = false) by reflexivity.
  assert (H4 : index_only cfg_sample = false) by reflexivity.
  match type of H with
  | _ = Ok ?o =>
      assert (H5 : Forall plain_line
                (lines_keepends
                   (flat_map utf8_enc_cp
                      (index_prelude (cfg_after o) (index_text o)))))
        by (vm_compute; repeat constructor);
      assert (H6 : Forall clean_file (@kept ascii_tables (cfg_after o) tree_sample))
        by (replace (@kept ascii_tables (cfg_after o) tree_sample)
              with [keep_txt] by (vm_compute; reflexivity);
            constructor; [|constructor];
            split; [discriminate|];
            split; [not_in_list|];
            vm_compute; repeat constructor);
      assert (H7 : NoDup (processed (run o)))
        by (apply (bool_decide_unpack _); vm_compute; exact I);
      assert (H8 : In keep_txt (@kept ascii_tables (cfg_after o) tree_sample))
        by (vm_compute; left; reflexivity)
  end.
  split; [exact H|]. split; [exact H1|]. split; [exact H2|].
  split; [exact H3|]. split; [exact H4|]. split; [exact H5|].
  split; [exact H6|]. split; [exact H7|]. split; [exact H8|].
  exact (@bundle_round_trip ascii_tables toy_codec _ _ _ _ _ keep_txt
           H H1 H2 H3 H4 H5 H6 H7 H8).
Defined.

(** C1, as stated, fails: the file [f.txt] holds "data" (valid UTF-8, no
    transform), and reading it back from the bundle gives "data" followed
    by a newline. *)
Lemma bundle_adds_newline :
  exists o,
    @pack_directory ascii_tables toy_codec (lit "/w") 0 tree_one_file
      default_config = Ok o /\
    @kept ascii_tables (cfg_after o) tree_one_file
    = [{| w_rel := lit "f.txt"; w_readable := true; w_data := lit "data" |}] /\
    get_file (init (out_bytes o)) (lit "f.txt") None None
    = Ok (lit "data" ++ [NL]) /\
    get_file (init (out_bytes o)) (lit "f.txt") None None
    <> Ok (read_text (lit "data")).
Proof.
  eexists. split; [vm_compute; reflexivity|].
  split; [vm_compute; reflexivity|].
  split; [vm_compute; reflexivity|].
  vm_compute. discriminate.
Qed.

(** ** END markers *)

(** C3, amended: an END marker line closes the entry that is open and
    stores its span whatever path the END marker names (the block below
    opens with [g] and closes with an END marker for [q]); an END marker
    met while no entry is open changes nothing but the offset, and the
    scan goes on with the lines that follow. *)
Theorem end_marker_closes_open_entry (g body q : bytes) (rest : list bytes)
    (st : scan) :
  g <> [] -> ~ In NL g -> q <> [] -> ~ In NL q ->
  complete_lines body -> Forall plain_line (lines_keepends body) ->
  (fold_left scan_step (lines_keepends (block_bytes g body q) ++ rest) st
   = fold_left scan_step rest
       {| offset := offset st + Z.of_nat (length (block_bytes g body q));
          current_path := None;
          start_pos := None;
          index :=
            <[utf8_decode_ignore g :=
                (offset st + Z.of_nat (length (start_line g)),
                 offset st + Z.of_nat (length (start_line g))
                 + Z.of_nat (length body))]> (index st) |}) /\
  (current_path st = None ->
   fold_left scan_step (end_line q :: rest) st
   = fold_left scan_step rest
       {| offset := offset st + Z.of_nat (length (end_line q));
          current_path := None;
          start_pos := start_pos st;
          index := index st |}).
Proof.
  intros Hg Hgn Hq Hqn Hc Hp. split.
  - pose proof (lines_keepends_block g body q [] Hgn Hqn Hc) as E.
    rewrite app_nil_r in E. cbn [lines_keepends] in E.
    rewrite app_nil_r in E. rewrite E.
    change ((start_line g :: lines_keepends body ++ [end_line q; [NL]]) ++ rest)
      with (start_line g :: (lines_keepends body ++ [end_line q; [NL]]) ++ rest).
    rewrite <- app_assoc. by apply scan_block.
  - intros Hn. cbn [fold_left].
    by rewrite scan_step_end_closed by done.
Qed.

Lemma end_marker_closes_open_entry_witness :
  lit "a" <> [] /\ ~ In NL (lit "a") /\ lit "b" <> [] /\ ~ In NL (lit "b") /\
  complete_lines (lit "x" ++ [NL]) /\
  Forall plain_line (lines_keepends (lit "x" ++ [NL])) /\
  (fold_left scan_step
     (lines_keepends (block_bytes (lit "a") (lit "x" ++ [NL]) (lit "b")) ++ [])
     scan0
   = fold_left scan_step []
       {| offset :=
            offset scan0
            + Z.of_nat (length (block_bytes (lit "a") (lit "x" ++ [NL]) (lit "b")));
          current_path := None;
          start_pos := None;
          index :=
            <[utf8_decode_ignore (lit "a") :=
                (offset scan0 + Z.of_nat (length (start_line (lit "a"))),
                 offset scan0 + Z.of_nat (length (start_line (lit "a")))
                 + Z.of_nat (length (lit "x" ++ [NL])))]> (index scan0) |}) /\
  (current_path scan0 = None ->
   fold_left scan_step (end_line (lit "b") :: []) scan0
   = fold_left scan_step []
       {| offset := offset scan0 + Z.of_nat (length (end_line (lit "b")));
          current_path := None;
          start_pos := start_pos scan0;
          index := index scan0 |}).
Proof.
  assert (H1 : lit "a" <> []) by discriminate.
  assert (H2 : ~ In NL (lit "a")) by not_in_list.
  assert (H3 : lit "b" <> []) by discriminate.
  assert (H4 : ~ In NL (lit "b")) by not_in_list.
  assert (H5 : complete_lines (lit "x" ++ [NL])) by (right; by eexists).
  assert (H6 : Forall plain_line (lines_keepends (lit "x" ++ [NL])))
    by (vm_compute; repeat constructor).
  split; [exact H1|]. split; [exact H2|]. split; [exact H3|].
  split; [exact H4|]. split; [exact H5|]. split; [exact H6|].
  exact (end_marker_closes_open_entry (lit "a") (lit "x" ++ [NL]) (lit "b")
           [] scan0 H1 H2 H3 H4 H5 H6).
Defined.

(** C3, as stated, fails: in [bundle_mismatch] the END marker names [b]
    while the open entry is [a], and the span of [a] is stored all the
    same. *)
Lemma end_marker_path_ignored :
  lines_keepends bundle_mismatch
  = [start_line (lit "a"); lit "x" ++ [NL]; end_line (lit "b"); [NL]] /\
  START_RE_B (start_line (lit "a")) = Some (lit "a") /\
  END_RE_B (end_line (lit "b")) = Some (lit "b") /\
  lit "a" <> lit "b" /\
  _index (init bundle_mismatch) !! lit "a" = Some (25, 27) /\
  list_files (init bundle_mismatch) = [lit "a"] /\
  get_file (init bundle_mismatch) (lit "a") None None = Ok (lit "x" ++ [NL]).
Proof.
  split; [vm_compute; reflexivity|].
  split; [vm_compute; reflexivity|].
  split; [vm_compute; reflexivity|].
  split; [discriminate|].
  split; [vm_compute; reflexivity|].
  split; vm_compute; reflexivity.
Qed.

(** An entry whose START marker is never closed is dropped: the next START
    marker replaces it, and only the second entry is recorded. *)
Lemma unterminated_start_dropped :
  let data := start_line (lit "lost") ++ lit "x" ++ [NL]
              ++ block_bytes (lit "a") (lit "y" ++ [NL]) (lit "a") in
  list_files (init data) = [lit "a"] /\
  get_file (init data) (lit "lost") None None
  = Raise (FileNotFoundError (lit "lost")).
Proof. split; vm_compute; reflexivity. Qed.

Lemma pack_twice_same_bytes_witness :
  exists o1,
    @pack_directory ascii_tables toy_codec (lit "/w") 100 tree_sample cfg_sample
    = Ok o1 /\
    (cfg_after o1 = cfg_sample \/ cfg_after o1 = cfg_after o1) /\
    (gzip_out cfg_sample = false \/ 100 = 200) /\
    exists o2,
      @pack_directory ascii_tables toy_codec (lit "/w") 200 tree_sample
        (cfg_after o1) = Ok o2 /\
      out_bytes o2 = out_bytes o1 /\ index_file o2 = index_file o1.
Proof.
  assert (H : { o | @pack_directory ascii_tables toy_codec (lit "/w") 100
                      tree_sample cfg_sample = Ok o }).
  { eexists. vm_compute. reflexivity. }
  destruct H as [o1 H]. exists o1.
  assert (H1 : cfg_after o1 = cfg_sample \/ cfg_after o1 = cfg_after o1)
    by (right; reflexivity).
  assert (H2 : gzip_out cfg_sample = false \/ 100 = 200) by (left; reflexivity).
  split; [exact H|]. split; [exact H1|]. split; [exact H2|].
  exact (@pack_twice_same_bytes ascii_tables toy_codec (lit "/w") 100 200
           tree_sample cfg_sample (cfg_after o1) o1 H H1 H2).
Defined.

(** C9, as stated, fails with gzip: the same directory packed with the
    same configuration one second later gives other bytes, because the
    gzip header carries the time of the run. *)
Lemma gzip_output_changes_with_time :
  exists o1 o2,
    @pack_directory ascii_tables toy_codec (lit "/w") 1700000000
      tree_one_file cfg_gz = Ok o1 /\
    @pack_directory ascii_tables toy_codec (lit "/w") 1700000001
      tree_one_file cfg_gz = Ok o2 /\
    firstn 10 (out_bytes o1) = [31; 139; 8; 0; 0; 241; 83; 101; 2; 255] /\
    firstn 10 (out_bytes o2) = [31; 139; 8; 0; 1; 241; 83; 101; 2; 255] /\
    out_bytes o1 <> out_bytes o2.
Proof.
  eexists. eexists.
  split; [vm_compute; reflexivity|].
  split; [vm_compute; reflexivity|].
  split; [vm_compute; reflexivity|].
  split; [vm_compute; reflexivity|].
  vm_compute. discriminate.
Qed.

Section GzipTime.
Context {D : Deflate}.

(** Only the four bytes of the time stamp depend on the clock. *)
Lemma gzip_write_time (now1 now2 : Z) (raw : bytes) :
  firstn 4 (gzip_write now1 raw) = firstn 4 (gzip_write now2 raw) /\
  skipn 8 (gzip_write now1 raw) = skipn 8 (gzip_write now2 raw).
Proof. split; reflexivity. Qed.

End GzipTime.

(** ** The tree index *)

Section TreeFacts.
Context {U : Unicode}.

(** Nothing is rendered at or below the depth cap. *)
Lemma render_depth_cap (include : list str) (d level : Z) (entries : dict)
    (prefix : str) :
  d <= level ->
  render include (Some d) (VDict entries) prefix level = Ok [].
Proof.
  intros H. cbn [render]. by rewrite (proj2 (Z.leb_le d level) H).
Qed.

End TreeFacts.

(** C7, on the order within a level: for a directory holding the file
    [a.txt] and the subdirectory [b/], the tree index lists the file first
    and the subdirectory after it.  The keys of a level are rendered in one
    sorted pass, files and subdirectories mixed. *)
Theorem tree_lists_file_before_directory :
  @_build_index_tree ascii_tables [] None index_files_mixed
  = Ok (join [NL] [lit "a.txt"; lit "b/"; lit "  c.txt"] ++ [NL]).
Proof. vm_compute. reflexivity. Qed.

(** The same entries with the metrics shown and with a depth cap of 1. *)
Lemma tree_with_sizes :
  @_build_index_tree ascii_tables [lit "size"] None index_files_mixed
  = Ok (join [NL] [lit "a.txt" ++ SEP ++ lit "size=1"; lit "b/";
                   lit "  c.txt" ++ SEP ++ lit "size=2"] ++ [NL]).
Proof. vm_compute. reflexivity. Qed.

Lemma tree_depth_one :
  @_build_index_tree ascii_tables [] (Some 1) index_files_mixed
  = Ok (join [NL] [lit "a.txt"; lit "b/"] ++ [NL]).
Proof. vm_compute. reflexivity. Qed.

(** ** The directory source *)

(** C2, amended: [DirSource.get_file] opens the path joined to the root and
    checks nothing else.  It returns the decoded content of whatever file
    that path resolves to, fails exactly when the path cannot be opened,
    and an absolute path replaces the root altogether, so that files
    outside the root are read like any other. *)
Theorem dir_get_file_unchecked (fs : fsnode) (self : DirSource.t) (path : str)
    (start end_ : option Z) :
  (forall data,
     open_read fs (path_join (DirSource.root_dir self) path) = Ok data ->
     DirSource.get_file fs self path start end_
     = Ok (select_lines start end_ (read_text data))) /\
  (forall e,
     open_read fs (path_join (DirSource.root_dir self) path) = Raise e ->
     DirSource.get_file fs self path start end_ = Raise e) /\
  (startswith path [SLASH] = true ->
   path_join (DirSource.root_dir self) path = path).
Proof.
  unfold DirSource.get_file. repeat split.
  - by intros data ->.
  - by intros e ->.
  - intros H. unfold path_join. by rewrite H.
Qed.

Lemma dir_get_file_unchecked_witness :
  (open_read fs_sample
     (path_join (DirSource.root_dir dir_sample) (lit "/secret.txt"))
   = Ok (lit "top secret") ->
   DirSource.get_file fs_sample dir_sample (lit "/secret.txt") None None
   = Ok (select_lines None None (read_text (lit "top secret")))) /\
  open_read fs_sample
    (path_join (DirSource.root_dir dir_sample) (lit "/secret.txt"))
  = Ok (lit "top secret") /\
  startswith (lit "/secret.txt") [SLASH] = true /\
  path_join (DirSource.root_dir dir_sample) (lit "/secret.txt")
  = lit "/secret.txt".
Proof.
  pose proof (dir_get_file_unchecked fs_sample dir_sample (lit "/secret.txt")
                None None) as (H1 & _ & H3).
  assert (Ho : open_read fs_sample
                 (path_join (DirSource.root_dir dir_sample) (lit "/secret.txt"))
               = Ok (lit "top secret")) by (vm_compute; reflexivity).
  assert (Hs : startswith (lit "/secret.txt") [SLASH] = true)
    by (vm_compute; reflexivity).
  split; [exact (H1 (lit "top secret"))|].
  split; [exact Ho|]. split; [exact Hs|]. exact (H3 Hs).
Defined.

(** C2, as stated, fails: the source serves [/data], and a path with a
    [..] segment returns the file [/secret.txt], which is outside it. *)
Lemma dir_get_file_escapes_root :
  DirSource.root_dir dir_sample = lit "/data" /\
  normpath (path_join (DirSource.root_dir dir_sample) (lit "../secret.txt"))
  = lit "/secret.txt" /\
  startswith (lit "/secret.txt") (lit "/data/") = false /\
  DirSource.get_file fs_sample dir_sample (lit "../secret.txt") None None
  = Ok (lit "top secret").
Proof. repeat split; vm_compute; reflexivity. Qed.

(** A [..] right below the root leads out of the served directory: the
    components that follow are resolved from the directory above it. *)
Lemma resolve_dotdot (above : list fsnode) (entries sub : list (str * fsnode))
    (d : str) (comps : list str) :
  d <> [] -> d <> lit "." -> d <> lit ".." ->
  lookup_entry d entries = Some (FDir sub) ->
  resolve above (FDir entries) (d :: lit ".." :: comps)
  = resolve above (FDir entries) comps.
Proof.
  intros H1 H2 H3 Hl. cbn [resolve].
  rewrite (proj2 (str_eqb_neq d []) H1), (proj2 (str_eqb_neq d (lit ".")) H2),
    (proj2 (str_eqb_neq d (lit "..")) H3), Hl.
  reflexivity.
Qed.

(** ** Search *)

Lemma In_insert_sorted {A} (le : A -> A -> bool) (x y : A) (l : list A) :
  In x (insert_sorted le y l) <-> x = y \/ In x l.
Proof.
  induction l as [|z l IH]; simpl; [intuition|].
  destruct (le y z); simpl; rewrite ?IH; intuition.
Qed.

Lemma In_stable_sort {A} (le : A -> A -> bool) (x : A) (l : list A) :
  In x (stable_sort le l) <-> In x l.
Proof.
  unfold stable_sort. induction l as [|y l IH]; simpl; [done|].
  rewrite In_insert_sorted, IH. intuition.
Qed.

Lemma In_firstn {A} (n : nat) (x : A) (l : list A) :
  In x (firstn n l) -> In x l.
Proof.
  revert n. induction l as [|y l IH]; intros [|n]; simpl; try done.
  intros [H|H]; [by left | right; by apply (IH n)].
Qed.

Lemma In_take_upto {A} (k : Z) (x : A) (l : list A) :
  In x (take_upto k l) -> In x l.
Proof. unfold take_upto. destruct (k <? 0); apply In_firstn. Qed.

Section SearchFacts.
Context {U : Unicode}.

Lemma file_type_bonus_cases (filename : str) :
  file_type_bonus filename = 15 \/ file_type_bonus filename = 10 \/
  file_type_bonus filename = 5 \/ file_type_bonus filename = 0.
Proof.
  unfold file_type_bonus.
  destruct (endswith filename (lit ".md")); [auto|].
  destruct (existsb _ source_exts); [auto|].
  destruct (existsb _ config_exts); auto.
Qed.

(** The score as one expression. *)
Lemma score_formula (tokens : list str) (path : str) (m : Z) :
  calculate_score tokens path m
  = Z.max 0
      (10 * m
       + 20 * filename_matches tokens (basename (lower path))
       + file_type_bonus (basename (lower path))
       - (if is_noise (lower path) then 30 else 0)).
Proof.
  unfold calculate_score. destruct (is_noise (lower path)); lia.
Qed.

(** Every hit of a file comes from one of its lines, on which at least one
    pattern matches, and carries the score of that line. *)
Lemma scan_lines_In cs tokens rel (lines : list str) (i : Z) (h : FileHit) :
  In h (scan_lines cs tokens rel i lines) ->
  exists (k : nat) (line : str),
    nth_error lines k = Some line /\
    hit_line h = i + Z.of_nat k /\
    hit_path h = rel /\
    hit_snippet h = strip line /\
    0 < count_matches cs tokens line /\
    hit_score h = calculate_score tokens rel (count_matches cs tokens line).
Proof.
  revert i. induction lines as [|line lines IH]; intros i; [done|].
  cbn [scan_lines]. intros H. apply in_app_or in H as [H|H].
  - destruct (Z.gtb_spec (count_matches cs tokens line) 0) as [Hm|Hm];
      [|done].
    destruct H as [<-|[]]. exists O, line. cbn. repeat split; lia.
  - destruct (IH _ H) as (k & l & Hn & Hl & Hrest).
    exists (S k), l. split; [done|]. split; [lia | exact Hrest].
Qed.

End SearchFacts.

Section SearchScores.
Context {U : Unicode}.

Lemma file_type_bonus_nonneg (filename : str) : 0 <= file_type_bonus filename.
Proof. destruct (file_type_bonus_cases filename) as [H|[H|[H|H]]]; lia. Qed.

Lemma filename_matches_nonneg (tokens : list str) (filename : str) :
  0 <= filename_matches tokens filename.
Proof. unfold filename_matches. lia. Qed.

(** C6, amended.  First part: every hit returned by [search] stands for a
    line of a listed file on which at least one query token matches, and
    its score is 10 times the number of query tokens matching the line
    (each occurrence of a token in the query counts), plus 20 times the
    number of query tokens found in the file name, plus the file-type
    bonus, minus 30 when the path is a noise path, and never below zero.
    Second part: of two paths with the same file-type bonus, neither of
    them a noise path, the one whose file name contains more of the query
    tokens scores strictly higher on the same number of line matches. *)
Theorem search_scores :
  (forall fs self query max_results case_sensitive h,
     In h (DirSource.search fs self query max_results case_sensitive) ->
     exists (data : bytes) (line : str),
       In (hit_path h) (DirSource._files self) /\
       open_read fs (path_join (DirSource.root_dir self) (hit_path h)) = Ok data /\
       1 <= hit_line h /\
       nth_error (lines_keepends (read_text data)) (Z.to_nat (hit_line h - 1))
       = Some line /\
       0 < count_matches case_sensitive (tokenize query) line /\
       hit_score h
       = Z.max 0
           (10 * count_matches case_sensitive (tokenize query) line
            + 20 * filename_matches (tokenize query)
                     (basename (lower (hit_path h)))
            + file_type_bonus (basename (lower (hit_path h)))
            - (if is_noise (lower (hit_path h)) then 30 else 0))) /\
  (forall tokens path1 path2 m,
     0 <= m ->
     is_noise (lower path1) = false -> is_noise (lower path2) = false ->
     file_type_bonus (basename (lower path1))
     = file_type_bonus (basename (lower path2)) ->
     filename_matches tokens (basename (lower path2))
     < filename_matches tokens (basename (lower path1)) ->
     calculate_score tokens path2 m < calculate_score tokens path1 m).
Proof.
  split.
  - intros fs self query max_results cs h Hin.
    unfold DirSource.search in Hin.
    apply In_take_upto in Hin. unfold sort_hits in Hin.
    apply In_stable_sort in Hin. unfold DirSource.candidates in Hin.
    apply in_flat_map in Hin as (rel & Hrel & Hin).
    destruct (open_read fs (path_join (DirSource.root_dir self) rel))
      as [data|] eqn:Ho; [|done].
    apply scan_lines_In in Hin as (k & line & Hn & Hl & Hp & _ & Hm & Hs).
    exists data, line. rewrite Hp, Hl.
    replace (Z.to_nat (1 + Z.of_nat k - 1)) with k by lia.
    repeat split; try done; try lia.
    rewrite Hs. apply score_formula.
  - intros tokens path1 path2 m Hm Hn1 Hn2 Hb Hf.
    rewrite !score_formula, Hn1, Hn2, Hb.
    pose proof (file_type_bonus_nonneg (basename (lower path2))).
    pose proof (filename_matches_nonneg tokens (basename (lower path2))).
    lia.
Qed.

(** The bundle source scores its hits with the same function: every hit
    of [BundleSource.search] is a line of a listed file's content as
    [get_file] returns it, with the score of that line. *)
Lemma bundle_search_scores (self : BundleSource.t) query max_results
    case_sensitive h :
  In h (BundleSource.search self query max_results case_sensitive) ->
  exists (content line : str),
    In (hit_path h) (BundleSource.list_files self) /\
    BundleSource.get_file self (hit_path h) None None = Ok content /\
    nth_error (lines_keepends content) (Z.to_nat (hit_line h - 1)) = Some line /\
    0 < count_matches case_sensitive (tokenize query) line /\
    hit_score h
    = calculate_score (tokenize query) (hit_path h)
        (count_matches case_sensitive (tokenize query) line).
Proof.
  intros Hin. unfold BundleSource.search in Hin.
  apply In_take_upto in Hin. unfold sort_hits in Hin.
  apply In_stable_sort in Hin. unfold BundleSource.candidates in Hin.
  apply in_flat_map in Hin as (rel & Hrel & Hin).
  destruct (BundleSource.get_file self rel None None) as [content|] eqn:Hg;
    [|done].
  apply scan_lines_In in Hin as (k & line & Hn & Hl & Hp & _ & Hm & Hs).
  exists content, line. rewrite Hp, Hl.
  replace (Z.to_nat (1 + Z.of_nat k - 1)) with k by lia.
  repeat split; done.
Qed.

End SearchScores.

Lemma search_scores_witness :
  (In {| hit_path := lit "a.txt"; hit_line := 1; hit_snippet := lit "foo";
         hit_score := 10 |}
      (@DirSource.search ascii_tables fs_search dir_search (lit "foo") 50 false) ->
   exists (data : bytes) (line : str),
     In (lit "a.txt") (DirSource._files dir_search) /\
     open_read fs_search (path_join (DirSource.root_dir dir_search) (lit "a.txt"))
     = Ok data /\
     1 <= 1 /\
     nth_error (lines_keepends (read_text data)) (Z.to_nat (1 - 1)) = Some line /\
     0 < @count_matches ascii_tables false (@tokenize ascii_tables (lit "foo")) line /\
     10 = Z.max 0
            (10 * @count_matches ascii_tables false
                    (@tokenize ascii_tables (lit "foo")) line
             + 20 * @filename_matches ascii_tables
                      (@tokenize ascii_tables (lit "foo"))
                      (basename (@lower ascii_tables (lit "a.txt")))
             + @file_type_bonus (basename (@lower ascii_tables (lit "a.txt")))
             - (if is_noise (@lower ascii_tables (lit "a.txt")) then 30 else 0))) /\
  In {| hit_path := lit "a.txt"; hit_line := 1; hit_snippet := lit "foo";
        hit_score := 10 |}
     (@DirSource.search ascii_tables fs_search dir_search (lit "foo") 50 false) /\
  (0 <= 1 /\
   is_noise (@lower ascii_tables (lit "src/foo.py")) = false /\
   is_noise (@lower ascii_tables (lit "src/bar.py")) = false /\
   file_type_bonus (basename (@lower ascii_tables (lit "src/foo.py")))
   = file_type_bonus (basename (@lower ascii_tables (lit "src/bar.py"))) /\
   @filename_matches ascii_tables [lit "foo"]
     (basename (@lower ascii_tables (lit "src/bar.py")))
   < @filename_matches ascii_tables [lit "foo"]
       (basename (@lower ascii_tables (lit "src/foo.py"))) /\
   @calculate_score ascii_tables [lit "foo"] (lit "src/bar.py") 1
   < @calculate_score ascii_tables [lit "foo"] (lit "src/foo.py") 1).
Proof.
  destruct (@search_scores ascii_tables) as [HA HB].
  split.
  { exact (HA fs_search dir_search (lit "foo") 50 false
             {| hit_path := lit "a.txt"; hit_line := 1;
                hit_snippet := lit "foo"; hit_score := 10 |}). }
  split.
  { vm_compute. left. reflexivity. }
  assert (H1 : 0 <= 1) by lia.
  assert (H2 : is_noise (@lower ascii_tables (lit "src/foo.py")) = false)
    by (vm_compute; reflexivity).
  assert (H3 : is_noise (@lower ascii_tables (lit "src/bar.py")) = false)
    by (vm_compute; reflexivity).
  assert (H4 : file_type_bonus (basename (@lower ascii_tables (lit "src/foo.py")))
               = file_type_bonus (basename (@lower ascii_tables (lit "src/bar.py"))))
    by (vm_compute; reflexivity).
  assert (H5 : @filename_matches ascii_tables [lit "foo"]
                 (basename (@lower ascii_tables (lit "src/bar.py")))
               < @filename_matches ascii_tables [lit "foo"]
                   (basename (@lower ascii_tables (lit "src/foo.py"))))
    by (vm_compute; reflexivity).
  split; [exact H1|]. split; [exact H2|]. split; [exact H3|].
  split; [exact H4|]. split; [exact H5|].
  exact (HB [lit "foo"] (lit "src/foo.py") (lit "src/bar.py") 1 H1 H2 H3 H4 H5).
Defined.

(** C6, as stated, fails twice.  A token repeated in the query is counted
    each time: for the query "foo foo", the line "foo" of [a.txt] scores
    20, not 10 times its one distinct token.  And with the noise penalty
    the clamp at zero levels the scores: [dist/foo] and [dist/bar] both
    score 0 for the query "foo", though only the first has the token in its
    file name. *)
Lemma search_counts_repeated_tokens :
  @tokenize ascii_tables (lit "foo foo") = [lit "foo"; lit "foo"] /\
  List.filter (fun h => str_eqb (hit_path h) (lit "a.txt"))
    (@DirSource.search ascii_tables fs_search dir_search (lit "foo foo") 50 false)
  = [{| hit_path := lit "a.txt"; hit_line := 1; hit_snippet := lit "foo";
        hit_score := 20 |}] /\
  @distinct_matches ascii_tables false [lit "foo"; lit "foo"] (lit "foo" ++ [NL])
  = 1 /\
  @filename_matches ascii_tables [lit "foo"; lit "foo"] (lit "a.txt") = 0 /\
  @file_type_bonus (lit "a.txt") = 0 /\
  is_noise (lit "a.txt") = false /\
  List.filter (fun h => negb (str_eqb (hit_path h) (lit "a.txt")))
    (@DirSource.search ascii_tables fs_search dir_search (lit "foo") 50 false)
  = [{| hit_path := lit "dist/bar"; hit_line := 1; hit_snippet := lit "foo";
        hit_score := 0 |};
     {| hit_path := lit "dist/foo"; hit_line := 1; hit_snippet := lit "foo";
        hit_score := 0 |}] /\
  @filename_matches ascii_tables [lit "foo"] (lit "foo") = 1 /\
  @filename_matches ascii_tables [lit "foo"] (lit "bar") = 0.
Proof. repeat split; vm_compute; reflexivity. Qed.
